(** * gfx: saturating colours, blenders, native image files and the blit engine

    A shallow embedding of [gfx.h] / [gfx.cpp].

    - [Sint32] values are integers of [Z]; the wrap-around of 32-bit
      arithmetic is written out with [wrap32].
    - [Uint8] is [byte]; [u8] reads a byte as a number, [byte.of_Z] is the
      narrowing cast.
    - [float] is IEEE 754 binary32, computed with the Standard Library's
      executable specification of floating-point arithmetic ([SpecFloat] at
      precision 24).
    - an [Image] owns an optional flat row-major pixel buffer; a missing
      buffer is the null pointer; an access outside a buffer has no defined
      result, and the functions that can make one return [option].
    - files are byte lists in a finite map from paths. *)

From Stdlib Require Import ZArith List Bool Lia Floats.SpecFloat.
From coqutil Require Import Byte Word.LittleEndianList.
From stdpp Require Import base option list strings gmap pmap.

Local Open Scope Z_scope.

(** ** Machine integers *)

Abbreviation Uint8 := byte.

Definition u8 (b : Uint8) : Z := byte.unsigned b.

Definition UCHAR_MAX : Z := 255.
Definition USHRT_MAX : Z := 65535.
Definition CHAR_BIT : Z := 8.

Definition Sint32_min : Z := -2147483648.
Definition Sint32_max : Z := 2147483647.

(** Two's complement reduction of an integer to 32 bits. *)
Definition wrap32 (z : Z) : Z := (z + 2 ^ 31) mod 2 ^ 32 - 2 ^ 31.

Definition is_Sint32 (z : Z) : Prop := Sint32_min <= z <= Sint32_max.

(** ** binary32 *)

Module F32.

Definition prec : Z := 24.
Definition emax : Z := 128.

Definition float : Type := spec_float.

Definition zero : float := S754_zero false.
Definition pinf : float := S754_infinity false.

(** [(float)z] for an integer [z], rounded to nearest even. *)
Definition of_Z (z : Z) : float := binary_normalize prec emax z 0 false.

Definition add : float -> float -> float := SFadd prec emax.
Definition sub : float -> float -> float := SFsub prec emax.
Definition mul : float -> float -> float := SFmul prec emax.
Definition div : float -> float -> float := SFdiv prec emax.
Definition leb : float -> float -> bool := SFleb.
Definition ltb : float -> float -> bool := SFltb.

Definition is_zero (f : float) : bool :=
  match f with S754_zero _ => true | _ => false end.

Definition is_finite (f : float) : bool :=
  match f with S754_zero _ | S754_finite _ _ _ => true | _ => false end.

(** The integer part of a finite float (rounding toward zero). *)
Definition trunc (f : float) : option Z :=
  match f with
  | S754_zero _ => Some 0
  | S754_finite s m e =>
      let a := match e with
               | Zneg p => Z.shiftr (Zpos m) (Zpos p)
               | _ => Z.shiftl (Zpos m) e
               end in
      Some (if s then - a else a)
  | S754_infinity _ | S754_nan => None
  end.

(** [(Sint32)f]. C++ defines the conversion only when the integer part
    fits the target; outside (and for NaN and the infinities) the model
    takes what the conversion instruction of x86 returns, the integer
    0x80000000. *)
Definition to_Sint32 (f : float) : Z :=
  match trunc f with
  | Some z => if (Sint32_min <=? z) && (z <=? Sint32_max) then z else Sint32_min
  | None => Sint32_min
  end.

(** [(Uint8)f]: the conversion to an integer, narrowed to its low byte. *)
Definition to_Uint8 (f : float) : Uint8 := byte.of_Z (to_Sint32 f).

(** A decimal literal [n/d] written with an [f] suffix: the binary32
    nearest to the quotient. *)
Definition literal (n d : Z) : float := div (of_Z n) (of_Z d).

(** [nearest_to_ratio f n d]: [f] is positive, finite, and no further
    than half a unit in its last place from the rational [n/d]. *)
Definition nearest_to_ratio (f : float) (n d : Z) : bool :=
  match f with
  | S754_finite false m (Zneg p) =>
      Z.abs (2 * Zpos m * d - n * 2 ^ (Zpos p + 1)) <=? d
  | _ => false
  end.

End F32.

(** ** Color32 *)

(** The union of a 32-bit [value] and the four [channels]; the record keeps
    the channels, [Color32_bytes] below gives the bytes of [value]. *)
Record Color32 : Type := mkColor32 {
  red : Uint8;
  green : Uint8;
  blue : Uint8;
  alpha : Uint8
}.

(** [Color32( void ) : value(0)] *)
Definition Color32_zero : Color32 :=
  mkColor32 Byte.x00 Byte.x00 Byte.x00 Byte.x00.

(** [Color32(Uint8 pR, Uint8 pG, Uint8 pB, Uint8 pA = UCHAR_MAX)] *)
Definition Color32_rgba (pR pG pB pA : Uint8) : Color32 := mkColor32 pR pG pB pA.
Definition Color32_rgb (pR pG pB : Uint8) : Color32 :=
  Color32_rgba pR pG pB (byte.of_Z UCHAR_MAX).

(** ** Loops *)

(** [while (cond) body] with a bound on the number of iterations; [None]
    when the bound is reached before the condition fails, or when the body
    has no defined result. *)
Fixpoint while_loop {St : Type} (fuel : nat) (cond : St -> bool)
    (body : St -> option St) (s : St) : option St :=
  match fuel with
  | O => None
  | S fuel' =>
      if cond s then
        match body s with
        | Some s' => while_loop fuel' cond body s'
        | None => None
        end
      else Some s
  end.

(** ** Colour arithmetic tables *)

(** A [T name[UCHAR_MAX+1][UCHAR_MAX+1]] array in static storage: a finite
    map from the flattened index; a cell never written holds the zero of
    static initialisation. *)
Module Table.

Definition t (A : Type) : Type := Pmap A.

Definition in_bounds (i j : Z) : bool :=
  (0 <=? i) && (i <=? UCHAR_MAX) && (0 <=? j) && (j <=? UCHAR_MAX).

Definition key (i j : Z) : positive := Z.to_pos (i * (UCHAR_MAX + 1) + j + 1).

Definition zero {A : Type} : t A := ∅.

(** [tab[i][j] = v]; no result for a cell outside the array. *)
Definition set {A : Type} (i j : Z) (v : A) (tab : t A) : option (t A) :=
  if in_bounds i j then Some (<[key i j := v]> tab) else None.

Definition get {A : Type} (dflt : A) (tab : t A) (i j : Z) : option A :=
  if in_bounds i j then Some (default dflt (tab !! key i j)) else None.

(** [tab[i][j]] for byte indices, which cannot leave the array. *)
Definition at_u8 (tab : t Uint8) (i j : Uint8) : Uint8 :=
  default Byte.x00 (tab !! key (u8 i) (u8 j)).

End Table.

Record Tables : Type := mkTables {
  tableAdd : Table.t Uint8;
  tableSub : Table.t Uint8;
  tableMul : Table.t Uint8;
  u8chan_to_fchan : Table.t F32.float   (* one row: [u8chan_to_fchan[i]] is cell (0, i) *)
}.

Definition Tables_static : Tables :=
  mkTables Table.zero Table.zero Table.zero Table.zero.

Definition fchan_at (g : Tables) (i : Uint8) : F32.float :=
  default F32.zero (u8chan_to_fchan g !! Table.key 0 (u8 i)).

Definition loop_fuel : nat := 300.

(** gfx.cpp 39-47. *)
Definition init_tableAdd (tab : Table.t Uint8) : option (Table.t Uint8) :=
  '(_, tab') ← while_loop loop_fuel (fun '(i, _) => i <=? UCHAR_MAX)
    (fun '(i, tab) =>
       '(j, _, tab1) ← while_loop loop_fuel (fun '(_, n, _) => n <=? UCHAR_MAX)
         (fun '(j, n, tab) =>
            tab' ← Table.set i j (byte.of_Z n) tab; Some (j + 1, n + 1, tab'))
         (0, i, tab);
       '(_, tab2) ← while_loop loop_fuel (fun '(j, _) => j <=? UCHAR_MAX)
         (fun '(j, tab) =>
            tab' ← Table.set i j (byte.of_Z UCHAR_MAX) tab; Some (j + 1, tab'))
         (j, tab1);
       Some (i + 1, tab2))
    (0, tab);
  Some tab'.

(** gfx.cpp 50-58. *)
Definition init_tableSub (tab : Table.t Uint8) : option (Table.t Uint8) :=
  '(_, tab') ← while_loop loop_fuel (fun '(i, _) => i <=? UCHAR_MAX)
    (fun '(i, tab) =>
       '(j, _, tab1) ← while_loop loop_fuel (fun '(_, n, _) => 0 <=? n)
         (fun '(j, n, tab) =>
            tab' ← Table.set i j (byte.of_Z n) tab; Some (j + 1, n - 1, tab'))
         (0, i, tab);
       '(_, tab2) ← while_loop loop_fuel (fun '(j, _) => j <=? UCHAR_MAX)
         (fun '(j, tab) =>
            tab' ← Table.set i j (byte.of_Z 0) tab; Some (j + 1, tab'))
         (j, tab1);
       Some (i + 1, tab2))
    (0, tab);
  Some tab'.

Definition fBYTE_MAX : F32.float := F32.of_Z UCHAR_MAX.
Definition f_one : F32.float := F32.of_Z 1.

(** gfx.cpp 61-66; the loop counters are floats. *)
Definition init_tableMul (tab : Table.t Uint8) : option (Table.t Uint8) :=
  '(_, tab') ← while_loop loop_fuel (fun '(i, _) => F32.leb i fBYTE_MAX)
    (fun '(i, tab) =>
       '(_, tab1) ← while_loop loop_fuel (fun '(j, _) => F32.leb j fBYTE_MAX)
         (fun '(j, tab) =>
            tab' ← Table.set (F32.to_Sint32 i) (F32.to_Sint32 j)
                     (F32.to_Uint8 (F32.mul i (F32.div j fBYTE_MAX))) tab;
            Some (F32.add j f_one, tab'))
         (F32.zero, tab);
       Some (F32.add i f_one, tab1))
    (F32.zero, tab);
  Some tab'.

(** gfx.cpp 69-71. *)
Definition init_u8chan_to_fchan (tab : Table.t F32.float) : option (Table.t F32.float) :=
  '(_, tab') ← while_loop loop_fuel (fun '(i, _) => i <? UCHAR_MAX + 1)
    (fun '(i, tab) =>
       tab' ← Table.set 0 i (F32.div fBYTE_MAX (F32.of_Z i)) tab; Some (i + 1, tab'))
    (0, tab);
  Some tab'.

(** The table construction of [GfxInit] (gfx.cpp 37-71); the [sizeof] test
    that guards it holds for the four-byte [Color32] of this model. *)
Definition GfxInit_tables (g : Tables) : option Tables :=
  ta ← init_tableAdd (tableAdd g);
  ts ← init_tableSub (tableSub g);
  tm ← init_tableMul (tableMul g);
  tf ← init_u8chan_to_fchan (u8chan_to_fchan g);
  Some (mkTables ta ts tm tf).

(** [GfxInit]: [sdl_init] is what [SDL_Init] returned and [set_video] what
    [GfxSetVideo] returns, both from the SDL collaborator. *)
Definition GfxInit (sdl_init : Z) (set_video : bool) (g : Tables) : option (bool * Tables) :=
  if sdl_init =? -1 then Some (false, g)
  else g' ← GfxInit_tables g; Some (set_video, g').

(** ** Colour operators (gfx.cpp 112-135, 152-166) *)

Section Operators.
Variable g : Tables.

(** [operator+=] and [operator+] (which applies it to a copy). *)
Definition Color32_add (pLeft pRight : Color32) : Color32 :=
  mkColor32
    (Table.at_u8 (tableAdd g) (red pLeft) (red pRight))
    (Table.at_u8 (tableAdd g) (green pLeft) (green pRight))
    (Table.at_u8 (tableAdd g) (blue pLeft) (blue pRight))
    (Table.at_u8 (tableAdd g) (alpha pLeft) (alpha pRight)).

Definition Color32_sub (pLeft pRight : Color32) : Color32 :=
  mkColor32
    (Table.at_u8 (tableSub g) (red pLeft) (red pRight))
    (Table.at_u8 (tableSub g) (green pLeft) (green pRight))
    (Table.at_u8 (tableSub g) (blue pLeft) (blue pRight))
    (Table.at_u8 (tableSub g) (alpha pLeft) (alpha pRight)).

Definition Color32_mul (pLeft pRight : Color32) : Color32 :=
  mkColor32
    (Table.at_u8 (tableMul g) (red pLeft) (red pRight))
    (Table.at_u8 (tableMul g) (green pLeft) (green pRight))
    (Table.at_u8 (tableMul g) (blue pLeft) (blue pRight))
    (Table.at_u8 (tableMul g) (alpha pLeft) (alpha pRight)).
End Operators.

Definition u8_eqb (a b : Uint8) : bool := u8 a =? u8 b.

(** [operator==]: does not test alpha. *)
Definition Color32_eqb (pLeft pRight : Color32) : bool :=
  u8_eqb (red pLeft) (red pRight) &&
  u8_eqb (green pLeft) (green pRight) &&
  u8_eqb (blue pLeft) (blue pRight).

Definition Color32_neqb (pLeft pRight : Color32) : bool :=
  negb (Color32_eqb pLeft pRight).

(** ** Blenders (gfx.h 119-191) *)

(** The abstract functor [Blender]: [blend b pDst pSrc] is
    [b(pDst, pSrc)]. *)
Class Blender (B : Type) : Type :=
  blend : B -> Color32 -> Color32 -> Color32.

Variant Assign : Type := mkAssign.

#[global] Instance Assign_Blender : Blender Assign :=
  fun _ pDst pSrc => pSrc.

Record ColorKey : Type := mkColorKey { key : Color32 }.

#[global] Instance ColorKey_Blender : Blender ColorKey :=
  fun this pDst pSrc => if Color32_eqb pSrc (key this) then pDst else pSrc.

Variant Grayscale : Type := mkGrayscale.

(** The weighted sum of [Grayscale::operator()], before the cast. *)
Definition Grayscale_luma (pSrc : Color32) : F32.float :=
  F32.add
    (F32.add
       (F32.mul (F32.of_Z (u8 (red pSrc))) (F32.literal 3 10))
       (F32.mul (F32.of_Z (u8 (green pSrc))) (F32.literal 59 100)))
    (F32.mul (F32.of_Z (u8 (blue pSrc))) (F32.literal 11 100)).

Definition Grayscale_call (pDst pSrc : Color32) : Color32 :=
  let Gray := F32.to_Uint8 (Grayscale_luma pSrc) in
  Color32_rgb Gray Gray Gray.

#[global] Instance Grayscale_Blender : Blender Grayscale :=
  fun _ => Grayscale_call.

Variant FillGrayscale : Type := mkFillGrayscale.

#[global] Instance FillGrayscale_Blender : Blender FillGrayscale :=
  fun _ pDst pSrc => Grayscale_call pSrc pDst.

(** ** Image (gfx.h 236-297, gfx.cpp 228-260) *)

(** [pixels = None] is the null pointer. *)
Record Image : Type := mkImage {
  pixels : option (list Color32);
  width : Z;
  height : Z
}.

Definition MaxDimension : Z := USHRT_MAX.

(** [Image( void )] *)
Definition Image_empty : Image := mkImage None 0 0.

Definition GetWidth (this : Image) : Z := width this.
Definition GetHeight (this : Image) : Z := height this.
Definition IsGood (this : Image) : bool :=
  match pixels this with Some _ => true | None => false end.
Definition IsBad (this : Image) : bool :=
  match pixels this with Some _ => false | None => true end.

(** What [SDL_SetError] was last called with: a fixed text; a text after
    the printed address of the object, ["0x" << this << ": " << text]; or,
    after that address, the text of a caught exception. *)
Variant ErrorMessage : Type :=
  | Msg (text : string)
  | MsgThis (text : string)
  | MsgThisWhat.

Definition Free (this : Image) : Image := mkImage None 0 0.

(** [new Color32[n]]: throws for a negative count, and when the allocator
    has no memory ([mem_ok = false]); otherwise [n] colours, each built by
    the default constructor. *)
Definition new_Color32 (mem_ok : bool) (n : Z) : option (list Color32) :=
  if (0 <=? n) && mem_ok then Some (replicate (Z.to_nat n) Color32_zero) else None.

(** [Create]: the image and the error message after the call. *)
Definition Create (mem_ok : bool) (pWidth pHeight : Z) (this : Image)
    (err : option ErrorMessage) : Image * option ErrorMessage :=
  let this := Free this in
  if (0 <? pWidth) && (pWidth <=? MaxDimension) &&
     (0 <? pHeight) && (pHeight <=? MaxDimension) then
    match new_Color32 mem_ok (wrap32 (pWidth * pHeight)) with
    | Some px => (mkImage (Some px) pWidth pHeight, err)
    | None => (Free this, Some MsgThisWhat)
    end
  else (this, Some (MsgThis "Invalid size")).

(** The offset of [pixels + width * pY + pX] in the buffer; [operator[]]
    multiplies in [Sint32]. *)
Definition pixel_offset (this : Image) (pY pX : Z) : Z :=
  wrap32 (width this * pY) + pX.

(** A read or a write at an offset of a buffer; outside, no result. *)
Definition buffer_read {A : Type} (buf : list A) (i : Z) : option A :=
  if i <? 0 then None else buf !! Z.to_nat i.

Definition buffer_write {A : Type} (buf : list A) (i : Z) (x : A) : option (list A) :=
  if (0 <=? i) && (i <? Z.of_nat (length buf)) then Some (<[Z.to_nat i := x]> buf)
  else None.

(** [pImage[pY][pX]] read. *)
Definition Image_read (this : Image) (pY pX : Z) : option Color32 :=
  px ← pixels this; buffer_read px (pixel_offset this pY pX).

(** ** Samplers (gfx.h 202-230, gfx.cpp 180-182) *)

Class Sampler (S : Type) : Type :=
  sample : S -> Image -> F32.float -> F32.float -> option Color32.

Variant Nearest : Type := mkNearest.

#[global] Instance Nearest_Sampler : Sampler Nearest :=
  fun _ pImage pU pV =>
    Image_read pImage
      (F32.to_Sint32 (F32.mul (F32.of_Z (wrap32 (GetHeight pImage - 1))) pV))
      (F32.to_Sint32 (F32.mul (F32.of_Z (wrap32 (GetWidth pImage - 1))) pU)).

(** ** Blit, image source (gfx.h 450-526) *)

(** What a blit does, in order: the accesses to the destination buffer and
    the calls of the sampler and the blender. *)
Variant Event : Type :=
  | EvDstRead (offset : Z)
  | EvSample (u v : F32.float)
  | EvBlend (pDst pSrc : Color32)
  | EvDstWrite (offset : Z) (c : Color32).

Record World : Type := mkWorld {
  w_dst : Image;
  w_error : option ErrorMessage;
  w_trace : list Event
}.

Definition log (e : Event) (w : World) : World :=
  mkWorld (w_dst w) (w_error w) (w_trace w ++ [e]).

Definition SDL_SetError (m : ErrorMessage) (w : World) : World :=
  mkWorld (w_dst w) (Some m) (w_trace w).

(** [dpix[i]] read and written; [dpix] is an offset into the buffer of the
    destination. *)
Definition dst_read (i : Z) (w : World) : option (Color32 * World) :=
  px ← pixels (w_dst w);
  c ← buffer_read px i;
  Some (c, log (EvDstRead i) w).

Definition dst_write (i : Z) (c : Color32) (w : World) : option World :=
  px ← pixels (w_dst w);
  px' ← buffer_write px i c;
  Some (log (EvDstWrite i c)
          (mkWorld (mkImage (Some px') (width (w_dst w)) (height (w_dst w)))
                   (w_error w) (w_trace w))).

Section BlitImage.
Context {Blender_t Sampler_t : Type} `{!Blender Blender_t, !Sampler Sampler_t}.
Variables (pBlend : Blender_t) (pSample : Sampler_t) (pSrc : Image).

(** One pass of the body of the inner loop (gfx.h 520-522). *)
Definition blit_pixel (dpix pDx1 x : Z) (u v : F32.float) (w : World) : option World :=
  let i := dpix + wrap32 (x + pDx1) in
  '(d, w) ← dst_read i w;
  s ← sample pSample pSrc u v;
  let w := log (EvSample u v) w in
  let c := blend pBlend d s in
  let w := log (EvBlend d s) w in
  dst_write i c w.

(** [for (Sint32 x = ...; x < MAXX; ++x)] with [n] passes left. *)
Fixpoint blit_row (n : nat) (dpix pDx1 x : Z) (u du v : F32.float) (w : World)
    : option World :=
  match n with
  | O => Some w
  | S n' =>
      w' ← blit_pixel dpix pDx1 x u v w;
      blit_row n' dpix pDx1 (x + 1) (F32.add u du) du v w'
  end.

(** [for (Sint32 y = ...; y < MAXY; ++y, dpix += DST_WIDTH)] with [n] passes
    left. *)
Fixpoint blit_rows (n : nat) (MAXX : Z) (dpix DST_WIDTH pDx1 : Z)
    (u1 du v dv : F32.float) (w : World) : option World :=
  match n with
  | O => Some w
  | S n' =>
      w' ← blit_row (Z.to_nat MAXX) dpix pDx1 0 u1 du v w;
      blit_rows n' MAXX (dpix + DST_WIDTH) DST_WIDTH pDx1 u1 du (F32.add v dv) dv w'
  end.

(** The swap of the endpoints of a reversed span and the read offset for a
    start left of (above) the canvas (gfx.h 472-486 and 487-501). *)
Definition flip_and_clip_min (pD1 pD2 : Z) (t1 t2 dt : F32.float)
    : Z * Z * F32.float * F32.float :=
  if pD2 <? pD1 then
    let '(pD1, pD2, t1, t2) := (pD2, pD1, t2, t1) in
    if pD1 <? 0 then (0, pD2, F32.sub t1 (F32.mul dt (F32.of_Z pD1)), t2)
    else (pD1, pD2, t1, t2)
  else if pD1 <? 0 then
    (0, pD2, F32.add t1 (F32.mul dt (F32.of_Z (wrap32 (- pD1)))), t2)
  else (pD1, pD2, t1, t2).

(** [Image::Blit] from an image; the destination is [w_dst w], an object
    other than [pSrc]. *)
Definition Blit (pDx1 pDy1 pDx2 pDy2 : Z) (pSx1 pSy1 pSx2 pSy2 : Z) (w : World)
    : option World :=
  let pDst := w_dst w in
  if IsBad pSrc || IsBad pDst then
    Some (SDL_SetError (Msg "Blit: Bad source/destination") w)
  else
    let pSx1 := if 0 >? pSx1 then 0 else pSx1 in
    let pSy1 := if 0 >? pSy1 then 0 else pSy1 in
    let pSx2 := if GetWidth pSrc <? pSx2 then GetWidth pSrc else pSx2 in
    let pSy2 := if GetHeight pSrc <? pSy2 then GetHeight pSrc else pSy2 in
    let u1 := F32.div (F32.of_Z pSx1) (F32.of_Z (wrap32 (GetWidth pSrc - 1))) in
    let v1 := F32.div (F32.of_Z pSy1) (F32.of_Z (wrap32 (GetHeight pSrc - 1))) in
    let u2 := F32.div (F32.of_Z pSx2) (F32.of_Z (wrap32 (GetWidth pSrc - 1))) in
    let v2 := F32.div (F32.of_Z pSy2) (F32.of_Z (wrap32 (GetHeight pSrc - 1))) in
    let du := F32.div (F32.sub u2 u1) (F32.of_Z (wrap32 (pDx2 - pDx1))) in
    let dv := F32.div (F32.sub v2 v1) (F32.of_Z (wrap32 (pDy2 - pDy1))) in
    let '(pDx1, pDx2, u1, u2) := flip_and_clip_min pDx1 pDx2 u1 u2 du in
    let '(pDy1, pDy2, v1, v2) := flip_and_clip_min pDy1 pDy2 v1 v2 dv in
    let pDx2 := if GetWidth pDst <? pDx2 then GetWidth pDst else pDx2 in
    let pDy2 := if GetHeight pDst <? pDy2 then GetHeight pDst else pDy2 in
    let MAXY := wrap32 (pDy2 - pDy1) in
    let MAXX := wrap32 (pDx2 - pDx1) in
    if (MAXX <? 0) || (MAXY <? 0) then Some w
    else
      let dpix := pixel_offset pDst pDy1 0 in
      let DST_WIDTH := GetWidth pDst in
      blit_rows (Z.to_nat MAXY) MAXX dpix DST_WIDTH pDx1 u1 du v1 dv w.

End BlitImage.

(** ** The bytes of values in memory (gfx.h 56-92) *)

Variant OS : Type := MACOSX | WIN32 | LINUX.
Variant ByteOrder : Type := SDL_LIL_ENDIAN | SDL_BIG_ENDIAN.

Record Platform : Type := mkPlatform {
  os : OS;
  SDL_BYTEORDER : ByteOrder
}.

Variant ChannelOrder : Type := ARGB32 | BGRA32.

(** The struct behind [Color32::channels], by the conditionals of gfx.h. *)
Definition channels_of (p : Platform) : ChannelOrder :=
  match os p, SDL_BYTEORDER p with
  | MACOSX, SDL_LIL_ENDIAN => ARGB32
  | MACOSX, SDL_BIG_ENDIAN => BGRA32
  | (WIN32 | LINUX), SDL_LIL_ENDIAN => BGRA32
  | (WIN32 | LINUX), SDL_BIG_ENDIAN => ARGB32
  end.

Definition sizeof_Color32 : Z := 4.
Definition sizeof_Sint32 : Z := 4.

Definition Color32_bytes (p : Platform) (c : Color32) : list byte :=
  match channels_of p with
  | ARGB32 => [alpha c; red c; green c; blue c]
  | BGRA32 => [blue c; green c; red c; alpha c]
  end.

Definition Color32_of_bytes (p : Platform) (bs : list byte) : option Color32 :=
  match bs with
  | [b0; b1; b2; b3] =>
      Some match channels_of p with
           | ARGB32 => mkColor32 b1 b2 b3 b0
           | BGRA32 => mkColor32 b2 b1 b0 b3
           end
  | _ => None
  end.

Definition Sint32_bytes (p : Platform) (z : Z) : list byte :=
  match SDL_BYTEORDER p with
  | SDL_LIL_ENDIAN => le_split 4 z
  | SDL_BIG_ENDIAN => rev (le_split 4 z)
  end.

Definition Sint32_of_bytes (p : Platform) (bs : list byte) : Z :=
  match SDL_BYTEORDER p with
  | SDL_LIL_ENDIAN => wrap32 (le_combine bs)
  | SDL_BIG_ENDIAN => wrap32 (le_combine (rev bs))
  end.

(** The memory of a [Color32] array, and the array held by such memory. *)
Definition pixels_bytes (p : Platform) (px : list Color32) : list byte :=
  concat (map (Color32_bytes p) px).

Fixpoint pixels_of_bytes (p : Platform) (n : nat) (bs : list byte) : list Color32 :=
  match n with
  | O => []
  | S n' =>
      default Color32_zero (Color32_of_bytes p (take 4 bs))
        :: pixels_of_bytes p n' (drop 4 bs)
  end.

(** ** Files and file streams *)

(** The files by path, and the paths no [std::ofstream] can open. *)
Record FileSys : Type := mkFileSys {
  files : gmap string (list byte);
  unwritable : gset string
}.

(** An open [std::ifstream]: the bytes of the file, the get position and
    the fail state. No exception mask is set anywhere in gfx, so a failed
    operation sets the state and throws nothing. *)
Record ifstream : Type := mk_ifstream {
  content : list byte;
  pos : Z;
  failed : bool
}.

(** [std::ifstream fin(path, std::ios::binary)]; [None] when [is_open()]
    is false. *)
Definition ifstream_open (fs : FileSys) (path : string) : option ifstream :=
  bs ← files fs !! path; Some (mk_ifstream bs 0 false).

(** [fin.read(buf, n)]: the bytes extracted. Fewer than [n] set the fail
    state; a stream in the fail state extracts nothing. *)
Definition ifstream_read (n : Z) (fin : ifstream) : list byte * ifstream :=
  if failed fin then ([], fin)
  else
    let got := take (Z.to_nat n) (drop (Z.to_nat (pos fin)) (content fin)) in
    (got, mk_ifstream (content fin) (pos fin + Z.of_nat (length got))
            (Z.of_nat (length got) <? n)).

(** [fin.seekg(off)]: nothing in the fail state; a negative offset fails. *)
Definition ifstream_seekg (off : Z) (fin : ifstream) : ifstream :=
  if failed fin then fin
  else if off <? 0 then mk_ifstream (content fin) (pos fin) true
  else mk_ifstream (content fin) off false.

(** The memory [old] after [got] was stored at its start. *)
Definition overwrite (old got : list byte) : list byte :=
  got ++ drop (length got) old.

(** [fin.read((char * )(&x), sizeof(x))] for a [Sint32] variable holding [x]. *)
Definition read_Sint32 (p : Platform) (x : Z) (fin : ifstream) : Z * ifstream :=
  let '(got, fin) := ifstream_read sizeof_Sint32 fin in
  (Sint32_of_bytes p (overwrite (Sint32_bytes p x) got), fin).

(** ** Image::Save and Image::Load (gfx.cpp 297-364) *)

(** The bytes [Save] writes when the device takes them all. *)
Definition Save_bytes (p : Platform) (this : Image) (px : list Color32) : list byte :=
  Sint32_bytes p sizeof_Color32 ++ Sint32_bytes p (width this) ++
  Sint32_bytes p (height this) ++
  take (Z.to_nat (wrap32 (width this * height this) * sizeof_Color32)) (pixels_bytes p px).

(** An open [std::ofstream]: the bytes written so far, the number of
    bytes the device still takes ([None]: every byte) and the fail state.
    No exception mask is set, so a failed write sets the state and throws
    nothing. *)
Record ofstream : Type := mk_ofstream {
  written : list byte;
  room : option nat;
  o_failed : bool
}.

(** [std::ofstream fout(path, std::ios::binary)]: the file is created or
    emptied; [None] when [is_open()] is false. *)
Definition ofstream_open (fs : FileSys) (device : option nat) (path : string)
    : option ofstream :=
  if bool_decide (path ∈ unwritable fs) then None
  else Some (mk_ofstream [] device false).

(** [fout.write(buf, n)] for a buffer holding [bytes]: nothing in the
    fail state; the bytes the device does not take are lost and set the
    fail state. *)
Definition ofstream_write (bytes : list byte) (fout : ofstream) : ofstream :=
  if o_failed fout then fout
  else
    match room fout with
    | None => mk_ofstream (written fout ++ bytes) None false
    | Some r =>
        mk_ofstream (written fout ++ take r bytes) (Some (r - length bytes)%nat)
          (r <? length bytes)%nat
    end.

(** [fout.close()]: the file holds what was written. *)
Definition ofstream_close (path : string) (fout : ofstream) (fs : FileSys) : FileSys :=
  mkFileSys (<[path := written fout]> (files fs)) (unwritable fs).

(** [Save]: the return value, the files and the error message after the
    call, on a device that takes [device] bytes; no result when the write
    would run past the end of the buffer. The state of the stream is never
    tested and the [catch] is never entered: once the file is open the
    call returns true. *)
Definition Save (p : Platform) (device : option nat) (pFile : string) (this : Image)
    (fs : FileSys) (err : option ErrorMessage)
    : option (bool * FileSys * option ErrorMessage) :=
  match pixels this with
  | None => Some (false, fs, err)
  | Some px =>
      let n := wrap32 (width this * height this) in
      if n =? 0 then Some (false, fs, err)
      else
        match ofstream_open fs device pFile with
        | None => Some (false, fs, Some (MsgThis "Could not open file"))
        | Some fout =>
            let fout := ofstream_write (Sint32_bytes p sizeof_Color32) fout in
            let fout := ofstream_write (Sint32_bytes p (width this)) fout in
            let fout := ofstream_write (Sint32_bytes p (height this)) fout in
            (* a write in the fail state does not touch the buffer *)
            if o_failed fout then Some (true, ofstream_close pFile fout fs, err)
            else if (n <? 0) || (Z.of_nat (length px) <? n) then None
            else
              let fout :=
                ofstream_write
                  (take (Z.to_nat (n * sizeof_Color32)) (pixels_bytes p px)) fout in
              Some (true, ofstream_close pFile fout fs, err)
        end
  end.

(** [Load]: the return value, the image and the error message after the
    call. *)
Definition Load (p : Platform) (mem_ok : bool) (pFile : string) (fs : FileSys)
    (this : Image) (err : option ErrorMessage)
    : bool * Image * option ErrorMessage :=
  match ifstream_open fs pFile with
  | None => (false, this, Some (MsgThis "Could not open file"))
  | Some fin =>
      let '(typeSize, fin) := read_Sint32 p 0 fin in
      if typeSize =? sizeof_Color32 then
        let '(w, fin) := read_Sint32 p (width this) fin in
        let '(h, fin) := read_Sint32 p (height this) fin in
        let this := mkImage (pixels this) w h in
        let '(this, err) := Create mem_ok (width this) (height this) this err in
        match pixels this with
        | Some px =>
            let n := wrap32 (width this * height this) in
            let '(got, fin) := ifstream_read (n * sizeof_Color32) fin in
            let px' := pixels_of_bytes p (length px) (overwrite (pixels_bytes p px) got) in
            (true, mkImage (Some px') (width this) (height this), err)
        | None => (false, this, err)
        end
      else
        (false, Free this, Some (MsgThis "Format not recognized"))
  end.

(** ** Image::Stream (gfx.h 280-297, gfx.cpp 492-519) *)

Record Stream : Type := mkStream {
  s_width : Z;
  s_height : Z;
  s_file : string;
  s_dataStart : Z
}.


Definition Stream_Free (this : Stream) : Stream := mkStream 0 0 "" 0.

Definition Stream_Load (p : Platform) (pFile : string) (fs : FileSys) (this : Stream)
    : bool * Stream :=
  match ifstream_open fs pFile with
  | None => (false, Stream_Free this)
  | Some fin =>
      let '(w, fin) := read_Sint32 p (s_width this) fin in
      let '(h, fin) := read_Sint32 p (s_height this) fin in
      (true, mkStream w h pFile (sizeof_Sint32 + sizeof_Sint32))
  end.

(** The offset in a file written by [Save] of its first pixel record: the
    type-size tag, the width and the height come before it. *)
Definition native_data_start : Z := sizeof_Sint32 + sizeof_Sint32 + sizeof_Sint32.

(** ** Blit, stream source (gfx.h 536-590) *)

(** [spix[k]] for the row buffer [spix], kept as its bytes. *)
Definition spix_read (p : Platform) (spix : list byte) (k : Z) : option Color32 :=
  if k <? 0 then None
  else Color32_of_bytes p (take 4 (drop (Z.to_nat (k * sizeof_Color32)) spix)).

Section BlitStream.
Context {Blender_t : Type} `{!Blender Blender_t}.
Variables (p : Platform) (pBlend : Blender_t).

(** The body of the inner loop (gfx.h 584). *)
Definition stream_pixel (spix : list byte) (SCALEX sx : Z) (dpix pDx1 x : Z) (w : World)
    : option World :=
  let i := dpix + wrap32 (x + pDx1) in
  '(d, w) ← dst_read i w;
  s ← spix_read p spix (Z.shiftr (wrap32 (SCALEX * wrap32 (x + sx))) 16);
  let c := blend pBlend d s in
  let w := log (EvBlend d s) w in
  dst_write i c w.

Fixpoint stream_row (n : nat) (spix : list byte) (SCALEX sx : Z) (dpix pDx1 x : Z)
    (w : World) : option World :=
  match n with
  | O => Some w
  | S n' =>
      w' ← stream_pixel spix SCALEX sx dpix pDx1 x w;
      stream_row n' spix SCALEX sx dpix pDx1 (x + 1) w'
  end.

(** The offset [seekg] is given for row [y] (gfx.h 581). *)
Definition stream_row_offset (SCALEY sy pSy1 SrcByteWidth SrcXOffset y : Z) : Z :=
  wrap32 (wrap32 ((wrap32 (Z.shiftr (wrap32 (SCALEY * wrap32 (y + sy))) 16 + pSy1))
                  * SrcByteWidth) + SrcXOffset).

(** The seek and the read of one row into [spix] (gfx.h 581-582); no
    result when more bytes arrive than the buffer holds. *)
Definition stream_fetch (off SrcXByteRead : Z) (fin : ifstream) (spix : list byte)
    : option (list byte * ifstream) :=
  let fin := ifstream_seekg off fin in
  let '(got, fin) := ifstream_read SrcXByteRead fin in
  if (length spix <? length got)%nat then None
  else Some (overwrite spix got, fin).

(** The scanline loop (gfx.h 580-586) with [n] passes left. *)
Fixpoint stream_rows (n : nat) (MAXX : Z) (SCALEX SCALEY sx sy pSy1 : Z)
    (SrcXByteRead SrcByteWidth SrcXOffset : Z) (DST_WIDTH pDx1 : Z)
    (y dpix : Z) (fin : ifstream) (spix : list byte) (w : World) : option World :=
  match n with
  | O => Some w
  | S n' =>
      '(spix, fin) ← stream_fetch
          (stream_row_offset SCALEY sy pSy1 SrcByteWidth SrcXOffset y)
          SrcXByteRead fin spix;
      w' ← stream_row (Z.to_nat MAXX) spix SCALEX sx dpix pDx1 0 w;
      stream_rows n' MAXX SCALEX SCALEY sx sy pSy1 SrcXByteRead SrcByteWidth SrcXOffset
        DST_WIDTH pDx1 (y + 1) (dpix + DST_WIDTH) fin spix w'
  end.



End BlitStream.

(** ** Predicates the properties are stated with *)


(** The values of a byte, in order. *)
Definition byte_values : list Z := map Z.of_nat (seq 0 256).

(** Two floats are the same datum (not the IEEE comparison, under which a
    NaN differs from itself). *)
Definition float_same (x y : F32.float) : bool :=
  match x, y with
  | S754_zero a, S754_zero b => Bool.eqb a b
  | S754_infinity a, S754_infinity b => Bool.eqb a b
  | S754_nan, S754_nan => true
  | S754_finite a m e, S754_finite b m' e' => Bool.eqb a b && (m =? m')%positive && (e =? e')
  | _, _ => false
  end.

Definition cell_is {A : Type} (tab : Table.t A) (i j : Z) (ok : A -> bool) : bool :=
  match tab !! Table.key i j with
  | Some v => ok v
  | None => false
  end.

(** Every cell of the four tables was written, and holds what the
    formulas of saturating arithmetic (for the float table: the quotient
    255 / i) give. *)
Definition tables_check (g : Tables) : bool :=
  forallb (fun i =>
    forallb (fun j =>
      cell_is (tableAdd g) i j (fun v => u8 v =? Z.min 255 (i + j)) &&
      cell_is (tableSub g) i j (fun v => u8 v =? Z.max 0 (i - j)) &&
      cell_is (tableMul g) i j (fun v => u8 v =? (i * j) / 255))
      byte_values &&
    cell_is (u8chan_to_fchan g) 0 i (fun v =>
      float_same v (F32.div (F32.of_Z 255) (F32.of_Z i)) &&
      if i =? 0 then F32.is_zero (F32.of_Z i) && float_same v F32.pinf
      else F32.is_finite v && F32.nearest_to_ratio v 255 i && F32.leb (F32.of_Z 1) v))
    byte_values.

(** The three weights of the luma as binary32 data: 0.3f is
    10066330 * 2^-25 (0x3E99999A), 0.59f is 9898557 * 2^-24 (0x3F170A3D)
    and 0.11f is 14763950 * 2^-27 (0x3DE147AE). *)
Definition luma_weight_red : F32.float := S754_finite false 10066330 (-25).
Definition luma_weight_green : F32.float := S754_finite false 9898557 (-24).
Definition luma_weight_blue : F32.float := S754_finite false 14763950 (-27).

(** The luma of the channel values [r], [g], [b] in single precision:
    each product and each sum rounded to the nearest binary32, the result
    cut to its integer part and narrowed to a byte. *)
Definition luma_binary32 (r g b : Z) : Uint8 :=
  F32.to_Uint8
    (F32.add
       (F32.add (F32.mul (F32.of_Z r) luma_weight_red)
                (F32.mul (F32.of_Z g) luma_weight_green))
       (F32.mul (F32.of_Z b) luma_weight_blue)).

(** [c] is [a op b] channel by channel. *)
Definition channelwise (op : Z -> Z -> Z) (a b c : Color32) : Prop :=
  u8 (red c) = op (u8 (red a)) (u8 (red b)) /\
  u8 (green c) = op (u8 (green a)) (u8 (green b)) /\
  u8 (blue c) = op (u8 (blue a)) (u8 (blue b)) /\
  u8 (alpha c) = op (u8 (alpha a)) (u8 (alpha b)).

Definition rgb_agree (a b : Color32) : Prop :=
  red a = red b /\ green a = green b /\ blue a = blue b.

(** ** Data the examples use *)

Definition c_A : Color32 := Color32_rgba (byte.of_Z 200) (byte.of_Z 10) (byte.of_Z 20) (byte.of_Z 255).
Definition c_B : Color32 := Color32_rgba (byte.of_Z 30) (byte.of_Z 180) (byte.of_Z 40) (byte.of_Z 255).
Definition c_C : Color32 := Color32_rgba (byte.of_Z 50) (byte.of_Z 60) (byte.of_Z 170) (byte.of_Z 255).
Definition c_D : Color32 := Color32_rgba (byte.of_Z 90) (byte.of_Z 90) (byte.of_Z 90) (byte.of_Z 255).
Definition c_P : Color32 := Color32_rgba (byte.of_Z 1) (byte.of_Z 2) (byte.of_Z 3) (byte.of_Z 4).
Definition c_Q : Color32 := Color32_rgba (byte.of_Z 5) (byte.of_Z 6) (byte.of_Z 7) (byte.of_Z 8).

(** A colour with alpha 0. *)
Definition c_clear : Color32 :=
  Color32_rgba (byte.of_Z 10) (byte.of_Z 20) (byte.of_Z 30) (byte.of_Z 0).

(** ** Images the class itself builds *)

(** The invariant [Create] (and with it [Load], [Copy] and [Convert])
    leaves: a buffer of [width * height] colours with both extents in
    [1, MaxDimension], or no buffer and no extent. *)
Definition Image_wf (this : Image) : Prop :=
  match pixels this with
  | Some px =>
      0 < width this <= MaxDimension /\ 0 < height this <= MaxDimension /\
      width this * height this <= Sint32_max /\
      Z.of_nat (length px) = width this * height this
  | None => width this = 0 /\ height this = 0
  end.

(** The destination rectangle, its end points in either order, covers no
    pixel of the canvas. *)
Definition rect_outside_canvas (pDst : Image) (pDx1 pDy1 pDx2 pDy2 : Z) : Prop :=
  forall x y : Z,
    0 <= x < GetWidth pDst -> 0 <= y < GetHeight pDst ->
    Z.min pDx1 pDx2 <= x < Z.max pDx1 pDx2 ->
    Z.min pDy1 pDy2 <= y < Z.max pDy1 pDy2 -> False.

(** An image of [w] by [h] pixels holding [px]. *)
Definition Image_of (w h : Z) (px : list Color32) : Image := mkImage (Some px) w h.

(** A world with destination [pDst], no error message and no event. *)
Definition World_of (pDst : Image) : World := mkWorld pDst None [].

Definition img_AB : Image := Image_of 2 1 [c_A; c_B].
Definition img_ABCD : Image := Image_of 2 2 [c_A; c_B; c_C; c_D].
Definition img_PQ : Image := Image_of 2 1 [c_P; c_Q].

Definition linux_x86 : Platform := mkPlatform LINUX SDL_LIL_ENDIAN.
Definition fs_empty : FileSys := mkFileSys ∅ ∅.

(** The files after [img_AB] was saved as ["ab.img"]. *)
Definition fs_saved_AB : FileSys :=
  mkFileSys (<["ab.img"%string := Save_bytes linux_x86 img_AB [c_A; c_B]]> ∅) ∅.

(** ** The partial completion of a streamed blit *)

(** The colour at an offset of the destination buffer. *)
Definition dst_pixel (w : World) (i : Z) : option Color32 :=
  px ← pixels (w_dst w); buffer_read px i.

(** The scanline loop without its seeks and reads: [n] rows, each blended
    from the one row buffer [spix]. *)
Fixpoint stale_rows {Blender_t : Type} `{!Blender Blender_t} (p : Platform)
    (pBlend : Blender_t) (n : nat) (MAXX SCALEX sx DST_WIDTH pDx1 dpix : Z)
    (spix : list byte) (w : World) : option World :=
  match n with
  | O => Some w
  | S n' =>
      w' ← stream_row p pBlend (Z.to_nat MAXX) spix SCALEX sx dpix pDx1 0 w;
      stale_rows p pBlend n' MAXX SCALEX sx DST_WIDTH pDx1 (dpix + DST_WIDTH) spix w'
  end.





(** ** AlphaBlend (gfx.h 141-150) *)

Variant AlphaBlend : Type := mkAlphaBlend.

(** [d += (a * (s - d) >> CHAR_BIT)] on a [Uint8] channel [d]: the
    arithmetic is done in [int], the sum is narrowed back to a byte. *)
Definition AlphaBlend_channel (a s d : Uint8) : Uint8 :=
  byte.of_Z (u8 d + Z.shiftr (wrap32 (u8 a * wrap32 (u8 s - u8 d))) CHAR_BIT).

#[global] Instance AlphaBlend_Blender : Blender AlphaBlend :=
  fun _ pDst pSrc =>
    mkColor32
      (AlphaBlend_channel (alpha pSrc) (red pSrc) (red pDst))
      (AlphaBlend_channel (alpha pSrc) (green pSrc) (green pDst))
      (AlphaBlend_channel (alpha pSrc) (blue pSrc) (blue pDst))
      (AlphaBlend_channel (alpha pSrc) (alpha pSrc) (alpha pDst)).

(** ** Image::Copy, ReverseByteorder, SetRGB, SetRGBA (gfx.cpp 279-290, 410-471) *)

(** [for (i = ...; i < n; ++i) dst[i] = src[i]] with [n] passes left; [src]
    is the buffer of the source, missing when its pointer is null. *)
Fixpoint copy_pixels (n : nat) (i : Z) (src : option (list Color32)) (dst : list Color32)
    : option (list Color32) :=
  match n with
  | O => Some dst
  | S n' =>
      s ← src;
      c ← buffer_read s i;
      dst' ← buffer_write dst i c;
      copy_pixels n' (i + 1) src dst'
  end.

(** [Copy]; [pImage] is an object other than [this]. *)
Definition Copy (mem_ok : bool) (pImage this : Image) (err : option ErrorMessage)
    : option (bool * Image * option ErrorMessage) :=
  let '(this, err) := Create mem_ok (width pImage) (height pImage) this err in
  match pixels this with
  | Some dst =>
      dst' ← copy_pixels (Z.to_nat (wrap32 (width this * height this))) 0 (pixels pImage) dst;
      Some (true, mkImage (Some dst') (width this) (height this), err)
  | None => Some (false, this, err)
  end.

(** The four bytes of one pixel after the two swaps of
    [ReverseByteorder]. *)
Definition swap_pixel_bytes (bytes : list byte) : list byte :=
  let temp := nth 0 bytes Byte.x00 in
  let bytes := <[0%nat := nth 3 bytes Byte.x00]> bytes in
  let bytes := <[3%nat := temp]> bytes in
  let temp := nth 1 bytes Byte.x00 in
  let bytes := <[1%nat := nth 2 bytes Byte.x00]> bytes in
  let bytes := <[2%nat := temp]> bytes in
  bytes.

Definition reverse_pixel (p : Platform) (c : Color32) : Color32 :=
  default c (Color32_of_bytes p (swap_pixel_bytes (Color32_bytes p c))).

Fixpoint reverse_pixels (p : Platform) (n : nat) (i : Z) (px : list Color32)
    : option (list Color32) :=
  match n with
  | O => Some px
  | S n' =>
      c ← buffer_read px i;
      px' ← buffer_write px i (reverse_pixel p c);
      reverse_pixels p n' (i + 1) px'
  end.

(** [ReverseByteorder]; with no buffer and a product of the extents other
    than zero the loop writes through the null pointer. *)
Definition ReverseByteorder (p : Platform) (this : Image) : option Image :=
  let n := Z.to_nat (wrap32 (width this * height this)) in
  match pixels this with
  | Some px =>
      px' ← reverse_pixels p n 0 px;
      Some (mkImage (Some px') (width this) (height this))
  | None => if (n =? 0)%nat then Some this else None
  end.

(** [(Uint8)(f * 255.f)] *)
Definition fchan_to_u8chan (f : F32.float) : Uint8 :=
  F32.to_Uint8 (F32.mul f (F32.of_Z 255)).

(** [SetRGBA]: the pixel at [pY][pX] gets its four channels. *)
Definition SetRGBA (pX pY : Z) (pR pG pB pA : F32.float) (this : Image) : option Image :=
  px ← pixels this;
  let i := pixel_offset this pY pX in
  px' ← buffer_write px i
         (mkColor32 (fchan_to_u8chan pR) (fchan_to_u8chan pG) (fchan_to_u8chan pB)
            (fchan_to_u8chan pA));
  Some (mkImage (Some px') (width this) (height this)).

(** [SetRGB]: as [SetRGBA], the alpha channel kept. *)
Definition SetRGB (pX pY : Z) (pR pG pB : F32.float) (this : Image) : option Image :=
  px ← pixels this;
  let i := pixel_offset this pY pX in
  c ← buffer_read px i;
  px' ← buffer_write px i
         (mkColor32 (fchan_to_u8chan pR) (fchan_to_u8chan pG) (fchan_to_u8chan pB) (alpha c));
  Some (mkImage (Some px') (width this) (height this)).

(** ** Image::Fill (gfx.h 338-352) *)

Section FillImage.
Context {Blender_t : Type} `{!Blender Blender_t}.
Variables (pPred : Blender_t) (pColor : Color32).

(** [for (x = ...; x < pX2; ++x) dst[x] = pPred(dst[x], pColor)] with [n]
    passes left; [dst] is an offset into the buffer. *)
Fixpoint fill_row (n : nat) (dst x : Z) (px : list Color32) : option (list Color32) :=
  match n with
  | O => Some px
  | S n' =>
      c ← buffer_read px (dst + x);
      px' ← buffer_write px (dst + x) (blend pPred c pColor);
      fill_row n' dst (x + 1) px'
  end.

(** [for (y = ...; y < pY2; ++y, dst += width)] with [n] passes left. *)
Fixpoint fill_rows (n : nat) (cols : nat) (dst stride pX1 : Z) (px : list Color32)
    : option (list Color32) :=
  match n with
  | O => Some px
  | S n' =>
      px' ← fill_row cols dst pX1 px;
      fill_rows n' cols (dst + stride) stride pX1 px'
  end.

(** [Fill]. The class does not test for a missing buffer: with one, a
    pass of the loops writes through the null pointer. *)
Definition Fill (pX1 pY1 pX2 pY2 : Z) (this : Image) : option Image :=
  let pX1 := if 0 >? pX1 then 0 else pX1 in
  let pY1 := if 0 >? pY1 then 0 else pY1 in
  let pX2 := if width this <? pX2 then width this else pX2 in
  let pY2 := if height this <? pY2 then height this else pY2 in
  let dst := pixel_offset this pY1 0 in
  let rows := Z.to_nat (pY2 - pY1) in
  let cols := Z.to_nat (pX2 - pX1) in
  match pixels this with
  | Some px =>
      px' ← fill_rows rows cols dst (width this) pX1 px;
      Some (mkImage (Some px') (width this) (height this))
  | None =>
      if (rows =? 0)%nat || (cols =? 0)%nat then Some this else None
  end.

End FillImage.

(** ** Image::Stream::IsGood and Refresh (gfx.cpp 525-541) *)

Definition Stream_IsGood (fs : FileSys) (this : Stream) : bool :=
  match ifstream_open fs (s_file this) with Some _ => true | None => false end.

Definition Stream_Refresh (p : Platform) (fs : FileSys) (this : Stream) : bool * Stream :=
  Stream_Load p (s_file this) fs this.

(** ** What the added properties are stated with *)

(** The colour of the pixel in column [x] of row [y]. *)
Definition Image_pixel (this : Image) (x y : Z) : option Color32 :=
  px ← pixels this; buffer_read px (width this * y + x).

Definition in_canvas (this : Image) (x y : Z) : Prop :=
  0 <= x < width this /\ 0 <= y < height this.

(** The part of the canvas between the end points of a rectangle. *)
Definition in_clipped (this : Image) (pX1 pY1 pX2 pY2 x y : Z) : Prop :=
  Z.max 0 pX1 <= x < Z.min (width this) pX2 /\
  Z.max 0 pY1 <= y < Z.min (height this) pY2.

Definition Color32_black : Color32 := Color32_zero.
Definition Color32_white : Color32 :=
  mkColor32 (byte.of_Z 255) (byte.of_Z 255) (byte.of_Z 255) (byte.of_Z 255).

(** [R] relates, on each of the four channels, the values of [a], [b] and
    [c]. *)
Definition channels_all (R : Z -> Z -> Z -> Prop) (a b c : Color32) : Prop :=
  R (u8 (red a)) (u8 (red b)) (u8 (red c)) /\
  R (u8 (green a)) (u8 (green b)) (u8 (green c)) /\
  R (u8 (blue a)) (u8 (blue b)) (u8 (blue c)) /\
  R (u8 (alpha a)) (u8 (alpha b)) (u8 (alpha c)).

(** The normalised float of a channel value, [k / 255.f]. *)
Definition u8chan_normalised (k : Uint8) : F32.float :=
  F32.div (F32.of_Z (u8 k)) (F32.of_Z 255).

Definition flip_ByteOrder (b : ByteOrder) : ByteOrder :=
  match b with SDL_LIL_ENDIAN => SDL_BIG_ENDIAN | SDL_BIG_ENDIAN => SDL_LIL_ENDIAN end.

(** The destination of [w'] has the extents and the buffer size of the
    destination of [w]. *)
Definition same_shape (w w' : World) : Prop :=
  width (w_dst w') = width (w_dst w) /\ height (w_dst w') = height (w_dst w) /\
  length <$> pixels (w_dst w') = length <$> pixels (w_dst w).

(** ** Image::Line (gfx.h 360-440) *)

Definition F32_abs : F32.float -> F32.float := SFabs.
Definition F32_eqb : F32.float -> F32.float -> bool := SFeqb.

(** The colour of [Line] at the fraction [t] of the way from the first end
    point to the second. *)
Definition Line_color (pColor1 pColor2 : Color32) (t : F32.float) : Color32 :=
  let mix (c1 c2 : Uint8) :=
    F32.to_Uint8
      (F32.add (F32.of_Z (u8 c1))
         (F32.mul (F32.sub (F32.of_Z (u8 c2)) (F32.of_Z (u8 c1))) t)) in
  mkColor32 (mix (red pColor1) (red pColor2)) (mix (green pColor1) (green pColor2))
    (mix (blue pColor1) (blue pColor2)) (mix (alpha pColor1) (alpha pColor2)).

Section LineImage.
Context {Blender_t : Type} `{!Blender Blender_t}.
Variable pPred : Blender_t.

(** [( *this)[pY][pX] = pPred(( *this)[pY][pX], color)] *)
Definition plot (this : Image) (pY pX : Z) (color : Color32) (px : list Color32)
    : option (list Color32) :=
  let i := pixel_offset this pY pX in
  c ← buffer_read px i;
  buffer_write px i (blend pPred c color).

(** The walk along one axis (gfx.h 383-410 for [x], 411-439 for [y]):
    [x_major] tells which. [a1], [a2] are the coordinates of the end points
    on the walked axis, [b1] the first end point's coordinate on the other
    one, [adiff], [bdiff] the differences, [a_extent] and [b_extent] the
    extents of the canvas on the two axes. *)
Definition Line_walk (fuel : nat) (x_major : bool) (this : Image)
    (a1 a2 b1 : Z) (adiff bdiff : F32.float) (a_extent b_extent : Z)
    (pColor1 pColor2 : Color32) (px : list Color32) : option (list Color32) :=
  let amin := if a1 <? a2 then F32.of_Z a1 else F32.of_Z a2 in
  let amax := if a1 <? a2 then F32.of_Z a2 else F32.of_Z a1 in
  let amin := if F32.ltb F32.zero amin then amin else F32.zero in
  let amax := if F32.ltb amax (F32.of_Z (wrap32 (a_extent - 1)))
              then amax else F32.of_Z (wrap32 (a_extent - 1)) in
  let slope := F32.div bdiff adiff in
  '(_, px') ← while_loop fuel (fun '(a, _) => F32.leb a amax)
    (fun '(a, px) =>
       let b := F32.add (F32.of_Z b1) (F32.mul (F32.sub a (F32.of_Z a1)) slope) in
       if F32.ltb b F32.zero || F32.leb (F32.of_Z b_extent) b
       then Some (F32.add a (F32.of_Z 1), px)
       else
         let color := Line_color pColor1 pColor2 (F32.div (F32.sub a (F32.of_Z a1)) adiff) in
         px' ← (if x_major
                then plot this (F32.to_Sint32 b) (F32.to_Sint32 a) color px
                else plot this (F32.to_Sint32 a) (F32.to_Sint32 b) color px);
         Some (F32.add a (F32.of_Z 1), px'))
    (amin, px);
  Some px'.

(** [Line]; [fuel] bounds the passes of the walk. With no buffer a plot
    writes through the null pointer: the walk is run on a buffer of no
    pixel, where every plot is outside. *)
Definition Line (fuel : nat) (pX1 pY1 : Z) (pColor1 : Color32) (pX2 pY2 : Z)
    (pColor2 : Color32) (this : Image) : option Image :=
  let xdiff := F32.of_Z (wrap32 (pX2 - pX1)) in
  let ydiff := F32.of_Z (wrap32 (pY2 - pY1)) in
  let px := default [] (pixels this) in
  let keep (r : option (list Color32)) :=
    px' ← r;
    Some (match pixels this with
          | Some _ => mkImage (Some px') (width this) (height this)
          | None => this
          end) in
  if F32_eqb xdiff F32.zero && F32_eqb ydiff F32.zero then
    if (0 <=? pX1) && (pX1 <? width this) && (0 <=? pY1) && (pY1 <? height this) then
      let color := mkColor32 (F32.to_Uint8 (F32.of_Z (u8 (red pColor1))))
                     (F32.to_Uint8 (F32.of_Z (u8 (green pColor1))))
                     (F32.to_Uint8 (F32.of_Z (u8 (blue pColor1))))
                     (F32.to_Uint8 (F32.of_Z (u8 (alpha pColor1)))) in
      keep (plot this pY1 pX1 color px)
    else Some this
  else if F32.ltb (F32_abs ydiff) (F32_abs xdiff) then
    keep (Line_walk fuel true this pX1 pX2 pY1 xdiff ydiff (width this) (height this)
            pColor1 pColor2 px)
  else
    keep (Line_walk fuel false this pY1 pY2 pX1 ydiff xdiff (height this) (width this)
            pColor1 pColor2 px).

End LineImage.

(** ** More data for the examples *)

(** A destination of 2 by 2 pixels. *)
Definition img_PQPQ : Image := Image_of 2 2 [c_P; c_Q; c_P; c_Q].

Definition macosx_x86 : Platform := mkPlatform MACOSX SDL_LIL_ENDIAN.
Definition linux_ppc : Platform := mkPlatform LINUX SDL_BIG_ENDIAN.

(** A saved image cut short: the tag, a header announcing 2 by 2 pixels,
    and the records of [c_A] and [c_B] only. *)
Definition fs_cut : FileSys :=
  mkFileSys
    (<["cut.img"%string :=
         Sint32_bytes linux_x86 sizeof_Color32 ++ Sint32_bytes linux_x86 2 ++
         Sint32_bytes linux_x86 2 ++ pixels_bytes linux_x86 [c_A; c_B]]> ∅) ∅.

(** ** What a streamed blit reads (gfx.h 540-584) *)


Section StreamedRows.
Variables (p : Platform) (bytes : list byte).
Variables (pDx1 pDy1 pDx2 pDy2 : Z) (pSrc : Stream) (pSx1 pSy1 pSx2 pSy2 : Z).



End StreamedRows.

(** * Properties *)

(** ** Bytes *)

Lemma u8_range (b : Uint8) : 0 <= u8 b <= 255.
Proof. unfold u8. pose proof (byte.unsigned_range b). lia. Qed.

Lemma u8_inj (a b : Uint8) : u8 a = u8 b -> a = b.
Proof. apply byte.unsigned_inj. Qed.

Lemma u8_eqb_eq (a b : Uint8) : u8_eqb a b = true <-> a = b.
Proof.
  unfold u8_eqb. rewrite Z.eqb_eq. split; [apply u8_inj | now intros ->].
Qed.

Lemma u8_in_byte_values (b : Uint8) : In (u8 b) byte_values.
Proof.
  unfold byte_values. apply in_map_iff. exists (Z.to_nat (u8 b)).
  pose proof (u8_range b). split; [lia | apply in_seq; lia].
Qed.

Lemma float_same_eq (x y : F32.float) : float_same x y = true -> x = y.
Proof.
  destruct x as [a|a| |a m e], y as [b|b| |b m' e']; simpl; try discriminate;
    try reflexivity.
  - intros H. apply Bool.eqb_prop in H. now subst.
  - intros H. apply Bool.eqb_prop in H. now subst.
  - rewrite !andb_true_iff. intros [[H1 H2] H3].
    apply Bool.eqb_prop in H1. apply Pos.eqb_eq in H2. apply Z.eqb_eq in H3.
    now subst.
Qed.

(** ** The tables after GfxInit *)

(** The four loops of [GfxInit] end within their bound, and the tables
    they leave pass [tables_check]: checked by running them. *)
Lemma GfxInit_tables_checked :
  (g ← GfxInit_tables Tables_static; Some (tables_check g)) = Some true.
Proof. vm_compute. reflexivity. Qed.

Lemma GfxInit_tables_result :
  exists g : Tables, GfxInit_tables Tables_static = Some g /\ tables_check g = true.
Proof.
  pose proof GfxInit_tables_checked as H.
  destruct (GfxInit_tables Tables_static) as [g|]; [| discriminate H].
  exists g. split; [reflexivity |].
  change (Some (tables_check g) = Some true) in H. now injection H.
Qed.

Lemma cell_is_at_u8 (tab : Table.t Uint8) (i j : Uint8) (ok : Uint8 -> bool) :
  cell_is tab (u8 i) (u8 j) ok = true -> ok (Table.at_u8 tab i j) = true.
Proof.
  unfold cell_is, Table.at_u8. now destruct (tab !! Table.key (u8 i) (u8 j)).
Qed.

Lemma tables_check_cells (g : Tables) (i j : Uint8) :
  tables_check g = true ->
  u8 (Table.at_u8 (tableAdd g) i j) = Z.min 255 (u8 i + u8 j) /\
  u8 (Table.at_u8 (tableSub g) i j) = Z.max 0 (u8 i - u8 j) /\
  u8 (Table.at_u8 (tableMul g) i j) = (u8 i * u8 j) / 255.
Proof.
  unfold tables_check. rewrite forallb_forall. intros H.
  specialize (H _ (u8_in_byte_values i)).
  apply andb_true_iff in H as [H _].
  rewrite forallb_forall in H. specialize (H _ (u8_in_byte_values j)).
  rewrite !andb_true_iff in H. destruct H as [[Ha Hs] Hm].
  apply cell_is_at_u8, Z.eqb_eq in Ha, Hs, Hm. auto.
Qed.

(** C2. After the table construction of [GfxInit], for all bytes [i] and
    [j]: [tableAdd[i][j] = min(255, i+j)], [tableSub[i][j] = max(0, i-j)]
    and [tableMul[i][j] = floor(i*j/255)]; so the operators [+], [-] and
    [*] of [Color32] saturate each of the four channels by these
    formulas. *)
Theorem GfxInit_tables_saturate :
  exists g : Tables, GfxInit_tables Tables_static = Some g /\
    (forall i j : Uint8,
       u8 (Table.at_u8 (tableAdd g) i j) = Z.min 255 (u8 i + u8 j) /\
       u8 (Table.at_u8 (tableSub g) i j) = Z.max 0 (u8 i - u8 j) /\
       u8 (Table.at_u8 (tableMul g) i j) = (u8 i * u8 j) / 255) /\
    (forall a b : Color32,
       channelwise (fun x y => Z.min 255 (x + y)) a b (Color32_add g a b) /\
       channelwise (fun x y => Z.max 0 (x - y)) a b (Color32_sub g a b) /\
       channelwise (fun x y => (x * y) / 255) a b (Color32_mul g a b)).
Proof.
  destruct GfxInit_tables_result as (g & Hg & Hc).
  exists g. split; [exact Hg |]. split.
  - intros i j. now apply tables_check_cells.
  - intros a b. unfold channelwise, Color32_add, Color32_sub, Color32_mul; simpl.
    pose proof (tables_check_cells g (red a) (red b) Hc) as (? & ? & ?).
    pose proof (tables_check_cells g (green a) (green b) Hc) as (? & ? & ?).
    pose proof (tables_check_cells g (blue a) (blue b) Hc) as (? & ? & ?).
    pose proof (tables_check_cells g (alpha a) (alpha b) Hc) as (? & ? & ?).
    repeat split; assumption.
Qed.

(** C4. For every channel value [i], [u8chan_to_fchan[i]] is built as 255
    divided by [i]: at [i = 0] the divisor is zero and the cell holds no
    number (the quotient by zero, an infinity); elsewhere the cell is the
    binary32 nearest to 255/i, which is at least 1 -- the reciprocal of
    the normalised channel i/255 and not that channel. *)
Theorem u8chan_to_fchan_is_reciprocal :
  exists g : Tables, GfxInit_tables Tables_static = Some g /\
    forall i : Uint8,
      fchan_at g i = F32.div (F32.of_Z 255) (F32.of_Z (u8 i)) /\
      if u8 i =? 0
      then F32.is_zero (F32.of_Z (u8 i)) = true /\ fchan_at g i = F32.pinf
      else F32.is_finite (fchan_at g i) = true /\
           F32.nearest_to_ratio (fchan_at g i) 255 (u8 i) = true /\
           F32.leb (F32.of_Z 1) (fchan_at g i) = true.
Proof.
  destruct GfxInit_tables_result as (g & Hg & Hc).
  exists g. split; [exact Hg |]. intros i.
  unfold tables_check in Hc. rewrite forallb_forall in Hc.
  specialize (Hc _ (u8_in_byte_values i)).
  apply andb_true_iff in Hc as [_ Hc].
  unfold cell_is in Hc. unfold fchan_at.
  destruct (u8chan_to_fchan g !! Table.key 0 (u8 i)) as [v|]; [| discriminate Hc].
  simpl. apply andb_true_iff in Hc as [Hv Hc].
  split; [now apply float_same_eq |].
  destruct (u8 i =? 0).
  - apply andb_true_iff in Hc as [Hz Hi]. split; [exact Hz | now apply float_same_eq].
  - rewrite !andb_true_iff in Hc. tauto.
Qed.

(** ** Blenders *)

Lemma Color32_eqb_rgb_agree (a b : Color32) :
  Color32_eqb a b = true <-> rgb_agree a b.
Proof.
  unfold Color32_eqb, rgb_agree. rewrite !andb_true_iff, !u8_eqb_eq. tauto.
Qed.

(** C9. [ColorKey(key)] returns [dst] exactly when [src] and [key] have
    the same red, green and blue channels, whatever their alpha channels
    hold, and returns [src] otherwise. *)
Theorem ColorKey_blend (k dst src : Color32) :
  (rgb_agree src k /\ blend (mkColorKey k) dst src = dst) \/
  (~ rgb_agree src k /\ blend (mkColorKey k) dst src = src).
Proof.
  unfold blend, ColorKey_Blender; simpl.
  destruct (Color32_eqb src k) eqn:E.
  - left. split; [now apply Color32_eqb_rgb_agree | reflexivity].
  - right. split; [| reflexivity].
    intros H. apply Color32_eqb_rgb_agree in H. congruence.
Qed.

(** The alpha channels of [src] and of the key play no part in the
    choice [ColorKey] makes. *)
Lemma ColorKey_alpha_irrelevant (k dst src : Color32) (a a' : Uint8) :
  let k' := mkColor32 (red k) (green k) (blue k) a in
  let src' := mkColor32 (red src) (green src) (blue src) a' in
  blend (mkColorKey k') dst src' = if Color32_eqb src k then dst else src'.
Proof. reflexivity. Qed.

(** The weights of [Grayscale] are the binary32 nearest to 0.30, 0.59
    and 0.11. *)
Lemma Grayscale_weights :
  F32.nearest_to_ratio (F32.literal 3 10) 3 10 = true /\
  F32.nearest_to_ratio (F32.literal 59 100) 59 100 = true /\
  F32.nearest_to_ratio (F32.literal 11 100) 11 100 = true.
Proof. vm_compute. auto. Qed.

(** [Grayscale] gives a source of alpha 0 the alpha 255. *)
Lemma Grayscale_drops_alpha :
  u8 (alpha c_clear) = 0 /\
  u8 (alpha (blend mkGrayscale c_P c_clear)) = 255 /\
  blend mkGrayscale c_P c_clear =
    Color32_rgba (byte.of_Z 18) (byte.of_Z 18) (byte.of_Z 18) (byte.of_Z 255).
Proof. vm_compute. auto. Qed.

(** C5, as stated, fails on the luma as well: for the grey source
    (7, 7, 7) the weighted sum 0.30*7 + 0.59*7 + 0.11*7 is exactly 7, and
    [Grayscale] returns 6 in the three colour channels; the alpha 0 of the
    source comes back as 255. *)
Lemma Grayscale_off_by_one_and_opaque :
  let src := mkColor32 (byte.of_Z 7) (byte.of_Z 7) (byte.of_Z 7) (byte.of_Z 0) in
  30 * u8 (red src) + 59 * u8 (green src) + 11 * u8 (blue src) = 100 * 7 /\
  u8 (alpha src) = 0 /\
  blend mkGrayscale c_P src =
    mkColor32 (byte.of_Z 6) (byte.of_Z 6) (byte.of_Z 6) (byte.of_Z 255).
Proof. vm_compute. auto. Qed.

(** The literals of [Grayscale] are the three weights. *)
Lemma Grayscale_literals :
  F32.literal 3 10 = luma_weight_red /\
  F32.literal 59 100 = luma_weight_green /\
  F32.literal 11 100 = luma_weight_blue.
Proof. vm_compute. auto. Qed.

(** On a grey value the luma in single precision is that value or one
    less. *)
Lemma luma_binary32_grey_checked :
  forallb (fun k : Z => (u8 (luma_binary32 k k k) =? k) || (u8 (luma_binary32 k k k) =? k - 1))
    byte_values = true.
Proof. vm_compute. reflexivity. Qed.

(** C5, amended. For all colours [dst] and [src], [Grayscale] returns a
    colour whose red, green and blue channels all hold the luma of [src]
    in single precision: the sum red*0.3f + green*0.59f + blue*0.11f, the
    weights being the binary32 nearest to 0.30, 0.59 and 0.11, each product
    and each sum rounded to the nearest binary32, and the result cut to its
    integer part -- on a grey source of value k that is k or k - 1, not
    always k. The alpha channel is 255 (the default of the constructor,
    not the alpha of [src]), and the result depends neither on [dst] nor
    on the alpha of [src]. *)
Theorem Grayscale_blend (dst src : Color32) :
  F32.nearest_to_ratio luma_weight_red 3 10 = true /\
  F32.nearest_to_ratio luma_weight_green 59 100 = true /\
  F32.nearest_to_ratio luma_weight_blue 11 100 = true /\
  (let Gray := luma_binary32 (u8 (red src)) (u8 (green src)) (u8 (blue src)) in
   red (blend mkGrayscale dst src) = Gray /\
   green (blend mkGrayscale dst src) = Gray /\
   blue (blend mkGrayscale dst src) = Gray) /\
  u8 (alpha (blend mkGrayscale dst src)) = 255 /\
  (forall dst' : Color32, blend mkGrayscale dst' src = blend mkGrayscale dst src) /\
  (forall a : Uint8,
     blend mkGrayscale dst (mkColor32 (red src) (green src) (blue src) a) =
     blend mkGrayscale dst src) /\
  (forall k a : Uint8,
     let grey := blend mkGrayscale dst (mkColor32 k k k a) in
     u8 (red grey) = u8 k \/ u8 (red grey) = u8 k - 1).
Proof.
  destruct Grayscale_literals as (Er & Eg & Eb).
  assert (Hblend : forall d c : Color32,
            blend mkGrayscale d c =
            let Gray := luma_binary32 (u8 (red c)) (u8 (green c)) (u8 (blue c)) in
            mkColor32 Gray Gray Gray (byte.of_Z UCHAR_MAX)).
  { intros d c.
    unfold blend, Grayscale_Blender, Grayscale_call, Grayscale_luma, Color32_rgb,
      Color32_rgba, luma_binary32.
    rewrite Er, Eg, Eb. reflexivity. }
  split; [vm_compute; reflexivity |]. split; [vm_compute; reflexivity |].
  split; [vm_compute; reflexivity |].
  split; [rewrite Hblend; cbv zeta; cbn [red green blue]; auto |].
  split; [rewrite Hblend; reflexivity |].
  split; [intros dst'; rewrite !Hblend; reflexivity |].
  split; [intros a; rewrite !Hblend; reflexivity |].
  intros k a. cbv zeta. rewrite Hblend. cbv zeta. cbn [red green blue].
  pose proof luma_binary32_grey_checked as H.
  rewrite forallb_forall in H. specialize (H _ (u8_in_byte_values k)). cbv beta in H.
  apply orb_true_iff in H as [H | H]; apply Z.eqb_eq in H; [left | right]; exact H.
Qed.

(** ** Machine integers *)

Lemma wrap32_small (z : Z) : is_Sint32 z -> wrap32 z = z.
Proof.
  unfold is_Sint32, Sint32_min, Sint32_max, wrap32. intros H.
  rewrite Z.mod_small; lia.
Qed.

Lemma wrap32_range (z : Z) : is_Sint32 (wrap32 z).
Proof.
  unfold is_Sint32, Sint32_min, Sint32_max, wrap32.
  pose proof (Z.mod_pos_bound (z + 2 ^ 31) (2 ^ 32) ltac:(lia)). lia.
Qed.

(** ** Create *)

Lemma Image_wf_Sint32 (this : Image) :
  Image_wf this -> 0 <= width this <= MaxDimension /\ 0 <= height this <= MaxDimension.
Proof.
  unfold Image_wf, MaxDimension, USHRT_MAX. destruct (pixels this); lia.
Qed.

(** [Create] leaves the invariant, and a good image has the extents asked
    for and every pixel zero. *)
Lemma Create_wf (mem_ok : bool) (pWidth pHeight : Z) (this : Image)
    (err : option ErrorMessage) :
  Image_wf (fst (Create mem_ok pWidth pHeight this err)).
Proof.
  unfold Create, new_Color32.
  destruct ((0 <? pWidth) && (pWidth <=? MaxDimension) &&
            (0 <? pHeight) && (pHeight <=? MaxDimension)) eqn:Hdim;
    [| simpl; unfold Image_wf; simpl; lia].
  rewrite !andb_true_iff in Hdim. destruct Hdim as [[[H1 H2] H3] H4].
  unfold MaxDimension, USHRT_MAX in *.
  destruct ((0 <=? wrap32 (pWidth * pHeight)) && mem_ok) eqn:Hn;
    [| simpl; unfold Image_wf; simpl; lia].
  apply andb_true_iff in Hn as [Hn _].
  simpl. unfold Image_wf, MaxDimension, USHRT_MAX; simpl.
  rewrite length_replicate.
  assert (pWidth * pHeight < 2 ^ 31).
  { destruct (Z_lt_ge_dec (pWidth * pHeight) (2 ^ 31)) as [|Hge]; [assumption |].
    exfalso. unfold wrap32 in Hn.
    assert (Hlt : pWidth * pHeight < 2 ^ 32) by nia.
    replace ((pWidth * pHeight + 2 ^ 31) mod 2 ^ 32)
      with (pWidth * pHeight + 2 ^ 31 - 2 ^ 32) in Hn
      by (apply Z.mod_unique with (q := 1); lia).
    lia. }
  rewrite wrap32_small by (unfold is_Sint32, Sint32_min, Sint32_max; nia).
  unfold Sint32_max. lia.
Qed.

(** ** Blit, image source *)

Section BlitImageFacts.
Context {Blender_t Sampler_t : Type} `{!Blender Blender_t, !Sampler Sampler_t}.
Variables (pBlend : Blender_t) (pSample : Sampler_t) (pSrc : Image).

Lemma IsBad_IsGood (this : Image) : IsBad this = negb (IsGood this).
Proof. unfold IsBad, IsGood. now destruct (pixels this). Qed.

(** The integers [flip_and_clip_min] returns: the smaller end point, not
    below 0, and the larger one. *)
Lemma flip_and_clip_min_span (pD1 pD2 : Z) (t1 t2 dt : F32.float) :
  exists t1' t2' : F32.float,
    flip_and_clip_min pD1 pD2 t1 t2 dt =
      (Z.max 0 (Z.min pD1 pD2), Z.max pD1 pD2, t1', t2').
Proof.
  unfold flip_and_clip_min.
  destruct (pD2 <? pD1) eqn:E1.
  - apply Z.ltb_lt in E1. destruct (pD2 <? 0) eqn:E2.
    + apply Z.ltb_lt in E2. do 2 eexists. f_equal. f_equal. f_equal; lia. 
    + apply Z.ltb_ge in E2. do 2 eexists. do 3 f_equal; lia.
  - apply Z.ltb_ge in E1. destruct (pD1 <? 0) eqn:E2.
    + apply Z.ltb_lt in E2. do 2 eexists. do 3 f_equal; lia.
    + apply Z.ltb_ge in E2. do 2 eexists. do 3 f_equal; lia.
Qed.

(** A row of no columns and a loop of such rows touch nothing. *)
Lemma blit_rows_no_columns (n : nat) (MAXX dpix DST_WIDTH pDx1 : Z)
    (u1 du v dv : F32.float) (w : World) :
  MAXX <= 0 ->
  blit_rows pBlend pSample pSrc n MAXX dpix DST_WIDTH pDx1 u1 du v dv w = Some w.
Proof.
  intros H. revert dpix v.
  induction n as [|n IH]; intros dpix v; simpl; [reflexivity |].
  replace (Z.to_nat MAXX) with 0%nat by lia. simpl. apply IH.
Qed.

(** C10. When the source or the destination has no pixel buffer, [Blit]
    sets the error message and returns: the destination and the trace are
    as they were, so no destination pixel was read or written and neither
    the sampler nor the blender was called. *)
Theorem Blit_bad_image (pDx1 pDy1 pDx2 pDy2 pSx1 pSy1 pSx2 pSy2 : Z) (w : World) :
  IsBad pSrc = true \/ IsBad (w_dst w) = true ->
  Blit pBlend pSample pSrc pDx1 pDy1 pDx2 pDy2 pSx1 pSy1 pSx2 pSy2 w =
    Some (mkWorld (w_dst w) (Some (Msg "Blit: Bad source/destination")) (w_trace w)).
Proof.
  intros H. unfold Blit.
  replace (IsBad pSrc || IsBad (w_dst w)) with true
    by (symmetry; apply orb_true_iff; exact H).
  reflexivity.
Qed.

(** C7. For a good source and a good destination, a destination
    rectangle that covers no pixel of the canvas makes [Blit] a no-op: the
    call returns with the destination buffer, the error message and the
    trace as they were. *)
Theorem Blit_outside_canvas (pDx1 pDy1 pDx2 pDy2 pSx1 pSy1 pSx2 pSy2 : Z) (w : World) :
  IsGood pSrc = true -> IsGood (w_dst w) = true -> Image_wf (w_dst w) ->
  is_Sint32 pDx1 -> is_Sint32 pDy1 -> is_Sint32 pDx2 -> is_Sint32 pDy2 ->
  rect_outside_canvas (w_dst w) pDx1 pDy1 pDx2 pDy2 ->
  Blit pBlend pSample pSrc pDx1 pDy1 pDx2 pDy2 pSx1 pSy1 pSx2 pSy2 w = Some w.
Proof.
  intros Hs Hd Hwf Hx1 Hy1 Hx2 Hy2 Hout. unfold Blit.
  rewrite !IsBad_IsGood, Hs, Hd. cbn [negb orb]. cbv zeta.
  match goal with |- context [flip_and_clip_min pDx1 pDx2 ?a ?b ?c] =>
    destruct (flip_and_clip_min_span pDx1 pDx2 a b c) as (u1' & u2' & ->) end.
  match goal with |- context [flip_and_clip_min pDy1 pDy2 ?a ?b ?c] =>
    destruct (flip_and_clip_min_span pDy1 pDy2 a b c) as (v1' & v2' & ->) end.
  apply Image_wf_Sint32 in Hwf. unfold MaxDimension, USHRT_MAX in Hwf.
  unfold rect_outside_canvas, GetWidth, GetHeight in *.
  set (W := width (w_dst w)) in *. set (H := height (w_dst w)) in *.
  unfold is_Sint32, Sint32_min, Sint32_max in *.
  set (X2 := if W <? Z.max pDx1 pDx2 then W else Z.max pDx1 pDx2).
  set (Y2 := if H <? Z.max pDy1 pDy2 then H else Z.max pDy1 pDy2).
  assert (HX2 : X2 = Z.min W (Z.max pDx1 pDx2)) by (unfold X2; destruct (Z.ltb_spec W (Z.max pDx1 pDx2)); lia).
  assert (HY2 : Y2 = Z.min H (Z.max pDy1 pDy2)) by (unfold Y2; destruct (Z.ltb_spec H (Z.max pDy1 pDy2)); lia).
  rewrite (wrap32_small (Y2 - _)), (wrap32_small (X2 - _))
    by (unfold is_Sint32, Sint32_min, Sint32_max; lia).
  assert (Hempty : X2 - Z.max 0 (Z.min pDx1 pDx2) <= 0 \/ Y2 - Z.max 0 (Z.min pDy1 pDy2) <= 0).
  { destruct (Z_le_gt_dec (X2 - Z.max 0 (Z.min pDx1 pDx2)) 0) as [|Hx]; [now left |].
    destruct (Z_le_gt_dec (Y2 - Z.max 0 (Z.min pDy1 pDy2)) 0) as [|Hy]; [now right |].
    exfalso. apply (Hout (Z.max 0 (Z.min pDx1 pDx2)) (Z.max 0 (Z.min pDy1 pDy2))); lia. }
  destruct ((X2 - Z.max 0 (Z.min pDx1 pDx2) <? 0) || (Y2 - Z.max 0 (Z.min pDy1 pDy2) <? 0));
    [reflexivity |].
  destruct Hempty as [Hx | Hy].
  - now apply blit_rows_no_columns.
  - replace (Z.to_nat (Y2 - Z.max 0 (Z.min pDy1 pDy2))) with 0%nat by lia. reflexivity.
Qed.

End BlitImageFacts.

(** ** Blit with a reversed destination span *)

Lemma Nearest_2x1_column_2 (A B : Color32) (v : F32.float) :
  F32.to_Sint32 (F32.mul (F32.of_Z 0) v) = 0 \/
  F32.to_Sint32 (F32.mul (F32.of_Z 0) v) = Sint32_min ->
  sample mkNearest (Image_of 2 1 [A; B]) (F32.of_Z 2) v = None.
Proof.
  intros Hv. unfold sample, Nearest_Sampler, Image_read, pixel_offset, GetHeight, GetWidth.
  cbn [pixels width height Image_of mbind option_bind].
  change (wrap32 (1 - 1)) with 0. change (wrap32 (2 - 1)) with 1.
  change (F32.to_Sint32 (F32.mul (F32.of_Z 1) (F32.of_Z 2))) with 2.
  destruct Hv as [-> | ->]; reflexivity.
Qed.

(** C3 on the code. A source of 2 by 1 pixels [[A, B]] blitted into the
    reversed span [pDx1 = 2], [pDx2 = 0] of a good destination: the
    mirrored traversal starts at the right end [u2 = 2/(2-1)] of the source
    span, which [Nearest] turns into column 2, outside the row of two
    pixels, so the call reads outside the source buffer and has no defined
    result; it does not write [[B, A]]. *)
Theorem Blit_reversed_2x1 {Blender_t : Type} `{!Blender Blender_t} (pBlend : Blender_t)
    (A B : Color32) (w : World) :
  IsGood (w_dst w) = true -> 1 <= GetWidth (w_dst w) -> 1 <= GetHeight (w_dst w) ->
  Blit pBlend mkNearest (Image_of 2 1 [A; B]) 2 0 0 1 0 0 MaxDimension MaxDimension w = None.
Proof.
  destruct w as [[[px|] W H] err tr]; [| discriminate].
  unfold GetWidth, GetHeight; cbn [w_dst width height]. intros _ HW HH.
  unfold Blit. cbn [IsBad pixels w_dst Image_of orb]. cbv zeta.
  unfold GetWidth, GetHeight. cbn [width height w_dst].
  match goal with |- context [flip_and_clip_min 2 0 ?a ?b ?c] =>
    let r := eval vm_compute in (flip_and_clip_min 2 0 a b c) in
    change (flip_and_clip_min 2 0 a b c) with r end.
  match goal with |- context [flip_and_clip_min 0 1 ?a ?b ?c] =>
    let r := eval vm_compute in (flip_and_clip_min 0 1 a b c) in
    change (flip_and_clip_min 0 1 a b c) with r end.
  cbv beta iota.
  assert (HY : (if H <? 1 then H else 1) = 1) by (destruct (Z.ltb_spec H 1); lia).
  rewrite HY. change (wrap32 (1 - 0)) with 1.
  assert (HX : wrap32 ((if W <? 2 then W else 2) - 0) = 1 \/
               wrap32 ((if W <? 2 then W else 2) - 0) = 2).
  { destruct (Z.ltb_spec W 2); [left; replace W with 1 by lia | right]; reflexivity. }
  assert (Hrow : forall n dpix du w0,
    blit_row pBlend mkNearest (Image_of 2 1 [A; B]) (S n) dpix 0 0
      (S754_finite false 8388608 (-22)) du S754_nan w0 = None).
  { intros n dpix du w0. cbn [blit_row]. unfold blit_pixel.
    destruct (dst_read (dpix + wrap32 (0 + 0)) w0) as [[d w1]|]; [| reflexivity].
    cbn [mbind option_bind].
    change (S754_finite false 8388608 (-22)) with (F32.of_Z 2).
    rewrite Nearest_2x1_column_2 by (right; reflexivity). reflexivity. }
  change (Z.to_nat 1) with 1%nat.
  destruct HX as [-> | ->]; cbn [orb Z.ltb Z.compare blit_rows];
    [change (Z.to_nat 1) with 1%nat | change (Z.to_nat 2) with 2%nat];
    rewrite Hrow; reflexivity.
Qed.

(** The reversed blit at a concrete destination. *)
Lemma Blit_reversed_2x1_witness :
  IsGood img_PQ = true /\
  Blit mkAssign mkNearest (Image_of 2 1 [c_A; c_B]) 2 0 0 1 0 0 MaxDimension MaxDimension
    (World_of img_PQ) = None.
Proof.
  split; [reflexivity |].
  apply (Blit_reversed_2x1 mkAssign c_A c_B (World_of img_PQ));
    [reflexivity | simpl; lia | simpl; lia].
Defined.

(** The same reversed span over the first row of a source of 2 by 2 pixels
    [[A, B; C, D]]: column 2 of row 0 is the first pixel of row 1, and the
    destination gets [[C, B]], one column to the right of the mirror image
    [[B, A]] ... *)
Example Blit_reversed_reads_one_column_right :
  w_dst <$> Blit mkAssign mkNearest img_ABCD 2 0 0 1 0 0 MaxDimension 1 (World_of img_PQ)
    = Some (Image_of 2 1 [c_C; c_B]).
Proof. vm_compute. reflexivity. Qed.

(** ... while the span in its natural order copies [[A, B]]. *)
Example Blit_forward_copies :
  w_dst <$> Blit mkAssign mkNearest img_ABCD 0 0 2 1 0 0 MaxDimension 1 (World_of img_PQ)
    = Some (Image_of 2 1 [c_A; c_B]).
Proof. vm_compute. reflexivity. Qed.

Lemma Blit_bad_image_witness :
  IsBad Image_empty = true /\
  Blit mkAssign mkNearest Image_empty 0 0 2 1 0 0 MaxDimension MaxDimension (World_of img_PQ)
    = Some (mkWorld img_PQ (Some (Msg "Blit: Bad source/destination")) []).
Proof.
  split; [reflexivity |].
  apply (Blit_bad_image mkAssign mkNearest Image_empty 0 0 2 1 0 0 MaxDimension MaxDimension
           (World_of img_PQ)).
  left. reflexivity.
Defined.

(** A rectangle to the right of a canvas of 2 by 1 pixels. *)
Lemma Blit_outside_canvas_witness :
  rect_outside_canvas img_PQ 5 0 7 1 /\
  Blit mkAssign mkNearest img_AB 5 0 7 1 0 0 MaxDimension MaxDimension (World_of img_PQ)
    = Some (World_of img_PQ).
Proof.
  assert (Hout : rect_outside_canvas img_PQ 5 0 7 1).
  { unfold rect_outside_canvas. simpl. intros x y. lia. }
  split; [exact Hout |].
  apply (Blit_outside_canvas mkAssign mkNearest img_AB 5 0 7 1 0 0 MaxDimension MaxDimension
           (World_of img_PQ)).
  - reflexivity.
  - reflexivity.
  - unfold Image_wf, MaxDimension, USHRT_MAX, Sint32_max. simpl. lia.
  - unfold is_Sint32, Sint32_min, Sint32_max. lia.
  - unfold is_Sint32, Sint32_min, Sint32_max. lia.
  - unfold is_Sint32, Sint32_min, Sint32_max. lia.
  - unfold is_Sint32, Sint32_min, Sint32_max. lia.
  - exact Hout.
Defined.

(** ** Bytes of integers and colours *)

Lemma Sint32_bytes_length (p : Platform) (z : Z) : length (Sint32_bytes p z) = 4%nat.
Proof.
  unfold Sint32_bytes. destruct (SDL_BYTEORDER p);
    rewrite ?length_rev; apply length_le_split.
Qed.

Lemma Sint32_of_bytes_bytes (p : Platform) (z : Z) :
  is_Sint32 z -> Sint32_of_bytes p (Sint32_bytes p z) = z.
Proof.
  intros Hz. unfold Sint32_of_bytes, Sint32_bytes.
  assert (H : wrap32 (le_combine (le_split 4 z)) = z).
  { rewrite le_combine_split. change (Z.of_nat 4 * 8) with 32.
    unfold is_Sint32, Sint32_min, Sint32_max in Hz. unfold wrap32.
    destruct (Z_lt_ge_dec z 0).
    - replace (z mod 2 ^ 32) with (z + 2 ^ 32)
        by (apply Z.mod_unique with (q := -1); lia).
      replace ((z + 2 ^ 32 + 2 ^ 31) mod 2 ^ 32) with (z + 2 ^ 31)
        by (apply Z.mod_unique with (q := 1); lia).
      lia.
    - rewrite (Z.mod_small z) by lia. rewrite Z.mod_small by lia. lia. }
  destruct (SDL_BYTEORDER p); [exact H | now rewrite rev_involutive].
Qed.

Lemma Color32_of_bytes_bytes (p : Platform) (c : Color32) :
  Color32_of_bytes p (Color32_bytes p c) = Some c.
Proof.
  unfold Color32_of_bytes, Color32_bytes. destruct c, (channels_of p); reflexivity.
Qed.

Lemma Color32_bytes_length (p : Platform) (c : Color32) :
  length (Color32_bytes p c) = 4%nat.
Proof. unfold Color32_bytes. now destruct (channels_of p). Qed.

Lemma pixels_bytes_length (p : Platform) (px : list Color32) :
  length (pixels_bytes p px) = (4 * length px)%nat.
Proof.
  unfold pixels_bytes. induction px as [|c px IH]; [reflexivity |].
  cbn [map concat]. rewrite length_app, Color32_bytes_length, IH. simpl. lia.
Qed.

Lemma pixels_of_bytes_bytes (p : Platform) (px : list Color32) (rest : list byte) :
  pixels_of_bytes p (length px) (pixels_bytes p px ++ rest) = px.
Proof.
  unfold pixels_bytes. induction px as [|c px IH]; [reflexivity |].
  cbn [map concat length pixels_of_bytes]. rewrite <- app_assoc.
  rewrite take_app_length' by (symmetry; apply Color32_bytes_length).
  rewrite drop_app_length' by (symmetry; apply Color32_bytes_length).
  rewrite Color32_of_bytes_bytes, IH. reflexivity.
Qed.

(** ** File streams *)

Lemma overwrite_all (old got : list byte) :
  length old = length got -> overwrite old got = got.
Proof.
  intros H. unfold overwrite. rewrite drop_ge by lia. apply app_nil_r.
Qed.

(** A read of exactly the bytes that follow the get position. *)
Lemma ifstream_read_chunk (pre chunk post bytes : list byte) (n k : Z) :
  bytes = pre ++ chunk ++ post -> k = Z.of_nat (length pre) ->
  n = Z.of_nat (length chunk) ->
  ifstream_read n (mk_ifstream bytes k false) = (chunk, mk_ifstream bytes (k + n) false).
Proof.
  intros -> -> ->. unfold ifstream_read. cbn [failed pos content].
  rewrite !Nat2Z.id, drop_app_length, take_app_length.
  f_equal. f_equal. apply Z.ltb_irrefl.
Qed.

Lemma read_Sint32_chunk (p : Platform) (pre post bytes : list byte) (x z k : Z) :
  bytes = pre ++ Sint32_bytes p z ++ post -> k = Z.of_nat (length pre) ->
  is_Sint32 z ->
  read_Sint32 p x (mk_ifstream bytes k false) = (z, mk_ifstream bytes (k + 4) false).
Proof.
  intros Hb Hk Hz. unfold read_Sint32.
  rewrite (ifstream_read_chunk pre (Sint32_bytes p z) post bytes sizeof_Sint32 k Hb Hk)
    by (now rewrite Sint32_bytes_length).
  rewrite overwrite_all by (now rewrite !Sint32_bytes_length).
  now rewrite Sint32_of_bytes_bytes.
Qed.

(** ** Save, Load and Stream::Load *)

Lemma Image_wf_good (this : Image) (px : list Color32) :
  pixels this = Some px -> Image_wf this ->
  0 < width this <= 65535 /\ 0 < height this <= 65535 /\
  0 < width this * height this <= 2147483647 /\
  wrap32 (width this * height this) = width this * height this /\
  Z.of_nat (length px) = width this * height this.
Proof.
  unfold Image_wf, MaxDimension, USHRT_MAX, Sint32_max. intros -> (Hw & Hh & Hn & Hl).
  repeat split; try lia; try nia.
  apply wrap32_small. unfold is_Sint32, Sint32_min, Sint32_max. nia.
Qed.

(** On a device that takes every byte the four writes leave
    [Save_bytes]. *)
Lemma Save_every_byte (p : Platform) (pFile : string) (this : Image) (fs : FileSys)
    (err : option ErrorMessage) :
  Save p None pFile this fs err =
  match pixels this with
  | None => Some (false, fs, err)
  | Some px =>
      let n := wrap32 (width this * height this) in
      if n =? 0 then Some (false, fs, err)
      else if bool_decide (pFile ∈ unwritable fs) then
        Some (false, fs, Some (MsgThis "Could not open file"))
      else if (n <? 0) || (Z.of_nat (length px) <? n) then None
      else
        Some (true, mkFileSys (<[pFile := Save_bytes p this px]> (files fs)) (unwritable fs),
              err)
  end.
Proof.
  unfold Save, ofstream_open. destruct (pixels this) as [px|]; [| reflexivity]. cbv zeta.
  destruct (wrap32 (width this * height this) =? 0); [reflexivity |].
  destruct (bool_decide (pFile ∈ unwritable fs)); [reflexivity |].
  unfold ofstream_write, ofstream_close, Save_bytes. cbn [o_failed room written].
  destruct ((wrap32 (width this * height this) <? 0) ||
            (Z.of_nat (length px) <? wrap32 (width this * height this))); [reflexivity |].
  cbn [app]. rewrite <- !app_assoc. reflexivity.
Qed.

(** The file [Save] leaves for an image that holds the invariant, on a
    device that takes every byte: the tag 4, the width, the height and the
    pixel records. *)
Lemma Save_wf (p : Platform) (pFile : string) (this : Image) (px : list Color32)
    (fs fs' : FileSys) (err err' : option ErrorMessage) :
  pixels this = Some px -> Image_wf this ->
  Save p None pFile this fs err = Some (true, fs', err') ->
  err' = err /\
  files fs' !! pFile =
    Some (Sint32_bytes p sizeof_Color32 ++ Sint32_bytes p (width this) ++
          Sint32_bytes p (height this) ++ pixels_bytes p px).
Proof.
  intros Hpx Hwf. destruct (Image_wf_good this px Hpx Hwf) as (Hw & Hh & Hn & Hwrap & Hlen).
  rewrite Save_every_byte. unfold Save_bytes. rewrite Hpx. cbv zeta. rewrite Hwrap.
  destruct (Z.eqb_spec (width this * height this) 0); [lia |].
  destruct (bool_decide (pFile ∈ unwritable fs)); [discriminate |].
  replace ((width this * height this <? 0) || (Z.of_nat (length px) <? width this * height this))
    with false by (symmetry; apply orb_false_iff; split; apply Z.ltb_ge; lia).
  intros [= <- <-]. split; [reflexivity |]. cbn [files].
  rewrite lookup_insert_eq. do 4 f_equal.
  apply take_ge. rewrite pixels_bytes_length. unfold sizeof_Color32. lia.
Qed.



(** C1 on the code. [Stream::Load] reads its width and height from the
    first eight bytes of the file and sets the data start to 8, but a file
    written by [Save] starts with the type-size tag: on every saved image
    (the device taking every byte) the handle gets the tag 4 as its width,
    the saved width as its height, and a data start of 8, four bytes before
    the first pixel record, which is at offset 12. *)
Theorem Stream_Load_of_saved (p : Platform) (pFile : string) (this : Image)
    (px : list Color32) (fs fs' : FileSys) (err err' : option ErrorMessage)
    (handle : Stream) :
  pixels this = Some px -> Image_wf this ->
  Save p None pFile this fs err = Some (true, fs', err') ->
  exists bytes : list byte,
    files fs' !! pFile = Some bytes /\
    drop (Z.to_nat native_data_start) bytes = pixels_bytes p px /\
    native_data_start = 12 /\
    Stream_Load p pFile fs' handle = (true, mkStream 4 (width this) pFile 8).
Proof.
  intros Hpx Hwf Hsave.
  destruct (Image_wf_good this px Hpx Hwf) as (Hw & Hh & Hn & Hwrap & Hlen).
  destruct (Save_wf p pFile this px fs fs' err err' Hpx Hwf Hsave) as [_ Hfile].
  assert (HS : forall z, 0 <= z <= 2147483647 -> is_Sint32 z)
    by (unfold is_Sint32, Sint32_min, Sint32_max; lia).
  set (tag := Sint32_bytes p sizeof_Color32) in *.
  set (wb := Sint32_bytes p (width this)) in *.
  set (hb := Sint32_bytes p (height this)) in *.
  assert (Ltag : length tag = 4%nat) by apply Sint32_bytes_length.
  assert (Lwb : length wb = 4%nat) by apply Sint32_bytes_length.
  assert (Lhb : length hb = 4%nat) by apply Sint32_bytes_length.
  set (bytes := tag ++ wb ++ hb ++ pixels_bytes p px) in *.
  assert (E1 : bytes = [] ++ tag ++ wb ++ hb ++ pixels_bytes p px) by reflexivity.
  assert (E2 : bytes = tag ++ wb ++ hb ++ pixels_bytes p px) by reflexivity.
  exists bytes.
  split; [exact Hfile |]. split; [| split; [reflexivity |]].
  - unfold bytes. rewrite !app_assoc. apply drop_app_length'.
    rewrite !length_app, Ltag, Lwb, Lhb. reflexivity.
  - unfold Stream_Load, ifstream_open. rewrite Hfile. cbn [mbind option_bind].
    rewrite (read_Sint32_chunk p [] (wb ++ hb ++ pixels_bytes p px) bytes (s_width handle)
               sizeof_Color32 0 E1 eq_refl
               (HS sizeof_Color32 ltac:(unfold sizeof_Color32; lia))).
    rewrite (read_Sint32_chunk p tag (hb ++ pixels_bytes p px) bytes (s_height handle)
               (width this) (0 + 4) E2
               ltac:(rewrite Ltag; reflexivity) (HS (width this) ltac:(lia))).
    reflexivity.
Qed.

(** A saved image of 2 by 1 pixels: the handle reports 4 by 2 and a data
    start of 8. *)
Lemma Stream_Load_of_saved_witness :
  exists bytes : list byte,
    files fs_saved_AB !! "ab.img"%string = Some bytes /\
    drop (Z.to_nat native_data_start) bytes = pixels_bytes linux_x86 [c_A; c_B] /\
    native_data_start = 12 /\
    Stream_Load linux_x86 "ab.img" fs_saved_AB (mkStream 0 0 "" 0) =
      (true, mkStream 4 (width img_AB) "ab.img" 8).
Proof.
  apply (Stream_Load_of_saved linux_x86 "ab.img" img_AB [c_A; c_B] fs_empty fs_saved_AB
           None None (mkStream 0 0 "" 0)).
  - reflexivity.
  - unfold Image_wf, MaxDimension, USHRT_MAX, Sint32_max. simpl. lia.
  - vm_compute. reflexivity.
Defined.


(** ** Blit, stream source *)

Lemma buffer_write_other {A : Type} (buf buf' : list A) (i j : Z) (x : A) :
  buffer_write buf i x = Some buf' -> j <> i -> buffer_read buf' j = buffer_read buf j.
Proof.
  unfold buffer_write, buffer_read.
  destruct ((0 <=? i) && (i <? Z.of_nat (length buf))) eqn:E; [| discriminate].
  apply andb_true_iff in E as [Hi _]. apply Z.leb_le in Hi.
  intros [= <-] Hne. destruct (Z.ltb_spec j 0); [reflexivity |].
  apply list_lookup_insert_ne. lia.
Qed.

Lemma dst_pixel_log (e : Event) (w : World) (j : Z) :
  dst_pixel (log e w) j = dst_pixel w j.
Proof. reflexivity. Qed.

Lemma dst_read_pixel (i : Z) (w w' : World) (c : Color32) (j : Z) :
  dst_read i w = Some (c, w') -> dst_pixel w' j = dst_pixel w j.
Proof.
  unfold dst_read. destruct (pixels (w_dst w)) as [px|] eqn:E; [| discriminate].
  cbn [mbind option_bind]. destruct (buffer_read px i); [| discriminate].
  cbn [mbind option_bind]. intros [= _ <-]. apply dst_pixel_log.
Qed.

Lemma dst_write_other (i j : Z) (c : Color32) (w w' : World) :
  dst_write i c w = Some w' -> j <> i -> dst_pixel w' j = dst_pixel w j.
Proof.
  unfold dst_write, dst_pixel.
  destruct (pixels (w_dst w)) as [px|] eqn:E; [| discriminate].
  cbn [mbind option_bind].
  destruct (buffer_write px i c) as [px'|] eqn:Ew; [| discriminate].
  cbn [mbind option_bind]. intros [= <-] Hne. cbn [log w_dst pixels mbind option_bind].
  eapply buffer_write_other; eassumption.
Qed.

Section BlitStreamFacts.
Context {Blender_t : Type} `{!Blender Blender_t}.
Variables (p : Platform) (pBlend : Blender_t).


(** A stream in the fail state gives the row buffer nothing. *)
Lemma stream_fetch_failed (off n : Z) (fin : ifstream) (spix : list byte) :
  failed fin = true -> stream_fetch off n fin spix = Some (spix, fin).
Proof.
  intros Hf. unfold stream_fetch, ifstream_seekg. rewrite Hf.
  unfold ifstream_read. rewrite Hf. reflexivity.
Qed.

Lemma stream_rows_failed (n : nat) (MAXX SCALEX SCALEY sx sy pSy1 : Z)
    (SrcXByteRead SrcByteWidth SrcXOffset DST_WIDTH pDx1 y dpix : Z)
    (fin : ifstream) (spix : list byte) (w : World) :
  failed fin = true ->
  stream_rows p pBlend n MAXX SCALEX SCALEY sx sy pSy1 SrcXByteRead SrcByteWidth SrcXOffset
    DST_WIDTH pDx1 y dpix fin spix w =
  stale_rows p pBlend n MAXX SCALEX sx DST_WIDTH pDx1 dpix spix w.
Proof.
  intros Hf. revert y dpix w.
  induction n as [|n IH]; intros y dpix w; [reflexivity |].
  cbn [stream_rows stale_rows]. rewrite stream_fetch_failed by exact Hf.
  cbn [mbind option_bind].
  destruct (stream_row p pBlend (Z.to_nat MAXX) spix SCALEX sx dpix pDx1 0 w); [| reflexivity].
  cbn [mbind option_bind]. apply IH.
Qed.

(** From the row whose read leaves the stream in the fail state on, every
    row is blended from the row buffer as that read left it. *)
Lemma stream_rows_after_failed_read (n : nat) (MAXX SCALEX SCALEY sx sy pSy1 : Z)
    (SrcXByteRead SrcByteWidth SrcXOffset DST_WIDTH pDx1 y dpix : Z)
    (fin fin' : ifstream) (spix spix' : list byte) (w : World) :
  stream_fetch (stream_row_offset SCALEY sy pSy1 SrcByteWidth SrcXOffset y)
    SrcXByteRead fin spix = Some (spix', fin') ->
  failed fin' = true ->
  stream_rows p pBlend (S n) MAXX SCALEX SCALEY sx sy pSy1 SrcXByteRead SrcByteWidth
    SrcXOffset DST_WIDTH pDx1 y dpix fin spix w =
  stale_rows p pBlend (S n) MAXX SCALEX sx DST_WIDTH pDx1 dpix spix' w.
Proof.
  intros Hfetch Hf. cbn [stream_rows stale_rows]. rewrite Hfetch.
  cbn [mbind option_bind].
  destruct (stream_row p pBlend (Z.to_nat MAXX) spix' SCALEX sx dpix pDx1 0 w); [| reflexivity].
  cbn [mbind option_bind]. now apply stream_rows_failed.
Qed.




End BlitStreamFacts.


(** ** Buffers *)

Lemma buffer_read_Some {A : Type} (buf : list A) (i : Z) :
  0 <= i < Z.of_nat (length buf) -> exists x : A, buffer_read buf i = Some x.
Proof.
  intros H. unfold buffer_read. destruct (Z.ltb_spec i 0); [lia |].
  destruct (lookup_lt_is_Some_2 buf (Z.to_nat i)) as [x Hx]; [lia |]. eauto.
Qed.

Lemma buffer_read_range {A : Type} (buf : list A) (i : Z) (x : A) :
  buffer_read buf i = Some x -> 0 <= i < Z.of_nat (length buf).
Proof.
  unfold buffer_read. destruct (Z.ltb_spec i 0) as [Hi | Hi]; [discriminate |].
  intros Hx. apply lookup_lt_Some in Hx. lia.
Qed.

Lemma buffer_write_Some {A : Type} (buf : list A) (i : Z) (x : A) :
  0 <= i < Z.of_nat (length buf) ->
  buffer_write buf i x = Some (<[Z.to_nat i := x]> buf).
Proof.
  intros H. unfold buffer_write.
  destruct (Z.leb_spec 0 i); [| lia]. destruct (Z.ltb_spec i (Z.of_nat (length buf))); [| lia].
  reflexivity.
Qed.

Lemma buffer_write_length {A : Type} (buf buf' : list A) (i : Z) (x : A) :
  buffer_write buf i x = Some buf' -> length buf' = length buf.
Proof.
  unfold buffer_write. destruct ((0 <=? i) && (i <? Z.of_nat (length buf))); [| discriminate].
  intros [= <-]. apply length_insert.
Qed.

Lemma buffer_write_same {A : Type} (buf buf' : list A) (i : Z) (x : A) :
  buffer_write buf i x = Some buf' -> buffer_read buf' i = Some x.
Proof.
  unfold buffer_write, buffer_read.
  destruct ((0 <=? i) && (i <? Z.of_nat (length buf))) eqn:E; [| discriminate].
  apply andb_true_iff in E as [H0 H1]. apply Z.leb_le in H0. apply Z.ltb_lt in H1.
  intros [= <-]. destruct (Z.ltb_spec i 0); [lia |].
  apply list_lookup_insert_eq. lia.
Qed.

(** ** Offsets of rows *)

Lemma row_bounds (W H r : Z) :
  0 < W -> 0 <= r < H -> 0 <= W * r /\ W * r + W <= W * H.
Proof. intros HW Hr. nia. Qed.

Lemma row_before (W r1 r2 c : Z) : 0 <= c < W -> r1 < r2 -> W * r1 + c < W * r2.
Proof. intros Hc Hr. nia. Qed.

(** ** Fill *)

Section FillFacts.
Context {Blender_t : Type} `{!Blender Blender_t}.
Variables (pPred : Blender_t) (pColor : Color32).

(** A row of [Fill]: the [n] pixels from [dst + x] on are blended, the
    others stay. *)
Lemma fill_row_spec (n : nat) (dst x : Z) (px : list Color32) :
  0 <= dst + x -> dst + x + Z.of_nat n <= Z.of_nat (length px) ->
  exists px' : list Color32,
    fill_row pPred pColor n dst x px = Some px' /\
    length px' = length px /\
    forall j : Z,
      buffer_read px' j =
        if (dst + x <=? j) && (j <? dst + x + Z.of_nat n)
        then (fun c => blend pPred c pColor) <$> buffer_read px j
        else buffer_read px j.
Proof.
  revert x px. induction n as [|n IH]; intros x px H0 H1.
  - exists px. split; [reflexivity |]. split; [reflexivity |]. intros j.
    destruct (Z.leb_spec (dst + x) j), (Z.ltb_spec j (dst + x + Z.of_nat 0)); simpl;
      try reflexivity; lia.
  - cbn [fill_row].
    destruct (buffer_read_Some px (dst + x)) as [c Hc]; [lia |].
    rewrite Hc. cbn [mbind option_bind].
    rewrite buffer_write_Some by lia. cbn [mbind option_bind].
    set (px1 := <[Z.to_nat (dst + x) := blend pPred c pColor]> px).
    assert (Hw : buffer_write px (dst + x) (blend pPred c pColor) = Some px1)
      by (apply buffer_write_Some; lia).
    destruct (IH (x + 1) px1) as (px' & Hrow & Hlen & Hpx).
    + lia.
    + unfold px1. rewrite length_insert. lia.
    + exists px'. split; [exact Hrow |]. split.
      * rewrite Hlen. unfold px1. apply length_insert.
      * intros j. rewrite Hpx.
        destruct (Z.eq_dec j (dst + x)) as [-> | Hne].
        -- replace ((dst + (x + 1) <=? dst + x) && (dst + x <? dst + (x + 1) + Z.of_nat n))
             with false by (symmetry; apply andb_false_iff; left; apply Z.leb_gt; lia).
           replace ((dst + x <=? dst + x) && (dst + x <? dst + x + Z.of_nat (S n)))
             with true
             by (symmetry; apply andb_true_iff; split; [apply Z.leb_le | apply Z.ltb_lt]; lia).
           rewrite (buffer_write_same _ _ _ _ Hw), Hc. reflexivity.
        -- rewrite (buffer_write_other _ _ _ j _ Hw Hne).
           replace ((dst + (x + 1) <=? j) && (j <? dst + (x + 1) + Z.of_nat n))
             with ((dst + x <=? j) && (j <? dst + x + Z.of_nat (S n))); [reflexivity |].
           destruct (Z.leb_spec (dst + x) j), (Z.leb_spec (dst + (x + 1)) j),
             (Z.ltb_spec j (dst + x + Z.of_nat (S n))),
             (Z.ltb_spec j (dst + (x + 1) + Z.of_nat n)); simpl; try reflexivity; lia.
Qed.

Lemma fill_rows_no_columns (n : nat) (dst stride pX1 : Z) (px : list Color32) :
  fill_rows pPred pColor n 0 dst stride pX1 px = Some px.
Proof.
  revert dst. induction n as [|n IH]; intros dst; [reflexivity |].
  cbn [fill_rows fill_row mbind option_bind]. apply IH.
Qed.

(** The rows of [Fill]: of the pixel at column [c] of the [r]-th row
    counted from the first one, and of the pixels before that row. *)
Lemma fill_rows_spec (n cols : nat) (dst stride pX1 : Z) (px : list Color32) :
  0 <= dst -> 0 <= pX1 -> pX1 + Z.of_nat cols <= stride ->
  dst + Z.of_nat n * stride <= Z.of_nat (length px) ->
  exists px' : list Color32,
    fill_rows pPred pColor n cols dst stride pX1 px = Some px' /\
    length px' = length px /\
    (forall j : Z, j < dst -> buffer_read px' j = buffer_read px j) /\
    (forall r c : Z, 0 <= r -> 0 <= c < stride ->
       buffer_read px' (dst + r * stride + c) =
         if (r <? Z.of_nat n) && (pX1 <=? c) && (c <? pX1 + Z.of_nat cols)
         then (fun c => blend pPred c pColor) <$> buffer_read px (dst + r * stride + c)
         else buffer_read px (dst + r * stride + c)).
Proof.
  revert dst px. induction n as [|n IH]; intros dst px Hd HX Hcols Hlen.
  - exists px. repeat split; try reflexivity. intros r c Hr Hc.
    destruct (Z.ltb_spec r (Z.of_nat 0)); [lia | reflexivity].
  - cbn [fill_rows].
    assert (Hs : 0 <= stride) by lia.
    destruct (fill_row_spec cols dst pX1 px) as (px1 & Hrow & Hlen1 & Hpx1); [lia | nia |].
    rewrite Hrow. cbn [mbind option_bind].
    destruct (IH (dst + stride) px1) as (px' & Hrows & Hlen' & Hbefore & Hpx');
      [lia | lia | lia | rewrite Hlen1; lia |].
    exists px'. split; [exact Hrows |]. split; [congruence |]. split.
    + intros j Hj. rewrite Hbefore by lia. rewrite Hpx1.
      destruct (Z.leb_spec (dst + pX1) j); [lia | reflexivity].
    + intros r c Hr Hc. destruct (Z.eq_dec r 0) as [-> | Hr0].
      * rewrite Hbefore by lia. rewrite Hpx1.
        replace (dst + 0 * stride + c) with (dst + c) by lia.
        replace (0 <? Z.of_nat (S n)) with true by (symmetry; apply Z.ltb_lt; lia).
        destruct (Z.leb_spec (dst + pX1) (dst + c)), (Z.leb_spec pX1 c),
          (Z.ltb_spec (dst + c) (dst + pX1 + Z.of_nat cols)),
          (Z.ltb_spec c (pX1 + Z.of_nat cols)); simpl; try reflexivity; lia.
      * replace (dst + r * stride + c) with (dst + stride + (r - 1) * stride + c) by lia.
        rewrite (Hpx' (r - 1) c) by lia. rewrite Hpx1.
        replace ((dst + pX1 <=? dst + stride + (r - 1) * stride + c) &&
                 (dst + stride + (r - 1) * stride + c <? dst + pX1 + Z.of_nat cols))
          with false
          by (symmetry; apply andb_false_iff; right; apply Z.ltb_ge; nia).
        replace (r - 1 <? Z.of_nat n) with (r <? Z.of_nat (S n)); [reflexivity |].
        destruct (Z.ltb_spec r (Z.of_nat (S n))), (Z.ltb_spec (r - 1) (Z.of_nat n));
          try reflexivity; lia.
Qed.

End FillFacts.

Section FillTheorem.
Context {Blender_t : Type} `{!Blender Blender_t}.
Variables (pPred : Blender_t) (pColor : Color32).

(** X1. [Fill] on an image that holds the class invariant always returns,
    keeps the extents and the invariant, blends [pColor] into exactly the
    pixels of the rectangle clipped to the canvas, and leaves every other
    pixel as it was; on an image with no buffer it touches nothing. *)
Theorem Fill_blends_clipped_rectangle (pX1 pY1 pX2 pY2 : Z) (this : Image) :
  Image_wf this ->
  exists this' : Image,
    Fill pPred pColor pX1 pY1 pX2 pY2 this = Some this' /\
    width this' = width this /\ height this' = height this /\
    IsGood this' = IsGood this /\ Image_wf this' /\
    forall x y : Z, in_canvas this x y ->
      (in_clipped this pX1 pY1 pX2 pY2 x y ->
         Image_pixel this' x y = (fun c => blend pPred c pColor) <$> Image_pixel this x y) /\
      (~ in_clipped this pX1 pY1 pX2 pY2 x y ->
         Image_pixel this' x y = Image_pixel this x y).
Proof.
  intros Hwf. unfold Fill. cbv zeta.
  set (X1 := if 0 >? pX1 then 0 else pX1).
  set (Y1 := if 0 >? pY1 then 0 else pY1).
  set (X2 := if width this <? pX2 then width this else pX2).
  set (Y2 := if height this <? pY2 then height this else pY2).
  assert (HX1 : X1 = Z.max 0 pX1) by (unfold X1; destruct (Z.gtb_spec 0 pX1); lia).
  assert (HY1 : Y1 = Z.max 0 pY1) by (unfold Y1; destruct (Z.gtb_spec 0 pY1); lia).
  assert (HX2 : X2 = Z.min (width this) pX2)
    by (unfold X2; destruct (Z.ltb_spec (width this) pX2); lia).
  assert (HY2 : Y2 = Z.min (height this) pY2)
    by (unfold Y2; destruct (Z.ltb_spec (height this) pY2); lia).
  unfold in_canvas, in_clipped. rewrite <- HX1, <- HY1, <- HX2, <- HY2.
  clearbody X1 Y1 X2 Y2.
  destruct (pixels this) as [px|] eqn:Hpx.
  - destruct (Image_wf_good this px Hpx Hwf) as (Hw & Hh & Hn & Hwrap & Hlen).
    assert (Hkeep : forall px' : list Color32, length px' = length px ->
              Image_wf (mkImage (Some px') (width this) (height this))).
    { intros px' Hl. unfold Image_wf in *. rewrite Hpx in Hwf. cbn [pixels width height].
      rewrite Hl. exact Hwf. }
    assert (Hgood : IsGood this = true) by (unfold IsGood; now rewrite Hpx).
    destruct (Z_le_gt_dec X2 X1) as [Hcols | Hcols];
      [| destruct (Z_le_gt_dec Y2 Y1) as [Hrows | Hrows]].
    + replace (Z.to_nat (X2 - X1)) with 0%nat by lia.
      rewrite fill_rows_no_columns. cbn [mbind option_bind].
      eexists. split; [reflexivity |]. cbn [width height].
      split; [reflexivity |]. split; [reflexivity |]. split; [now rewrite Hgood |].
      split; [now apply Hkeep |].
      intros x y _. unfold Image_pixel. cbn [pixels width]. rewrite Hpx.
      split; [lia | reflexivity].
    + replace (Z.to_nat (Y2 - Y1)) with 0%nat by lia.
      cbn [fill_rows mbind option_bind].
      eexists. split; [reflexivity |]. cbn [width height].
      split; [reflexivity |]. split; [reflexivity |]. split; [now rewrite Hgood |].
      split; [now apply Hkeep |].
      intros x y _. unfold Image_pixel. cbn [pixels width]. rewrite Hpx.
      split; [lia | reflexivity].
    + assert (Hoff : pixel_offset this Y1 0 = width this * Y1).
      { unfold pixel_offset. rewrite wrap32_small; [lia |].
        destruct (row_bounds (width this) (height this) Y1) as [B1 B2]; [lia | lia |].
        unfold is_Sint32, Sint32_min, Sint32_max. lia. }
      rewrite Hoff.
      destruct (fill_rows_spec pPred pColor (Z.to_nat (Y2 - Y1)) (Z.to_nat (X2 - X1))
                  (width this * Y1) (width this) X1 px)
        as (px' & Hrows' & Hlen' & Hbefore & Hcell).
      { destruct (row_bounds (width this) (height this) Y1); lia. }
      { lia. }
      { lia. }
      { destruct (row_bounds (width this) (height this) (Y2 - 1)) as [B1 B2]; [lia | lia |].
        rewrite Z2Nat.id by lia. lia. }
      rewrite Hrows'. cbn [mbind option_bind].
      eexists. split; [reflexivity |]. cbn [width height].
      split; [reflexivity |]. split; [reflexivity |]. split; [now rewrite Hgood |].
      split; [now apply Hkeep |].
      intros x y [Hx Hy]. unfold Image_pixel. cbn [pixels width]. rewrite Hpx.
      cbn [mbind option_bind].
      destruct (Z_lt_ge_dec y Y1) as [Hlt | Hge].
      * rewrite Hbefore by (apply row_before; lia). split; [lia | reflexivity].
      * replace (width this * y + x) with (width this * Y1 + (y - Y1) * width this + x) by lia.
        rewrite (Hcell (y - Y1) x) by lia.
        destruct (Z.ltb_spec (y - Y1) (Z.of_nat (Z.to_nat (Y2 - Y1)))),
          (Z.leb_spec X1 x), (Z.ltb_spec x (X1 + Z.of_nat (Z.to_nat (X2 - X1))));
          cbn [andb]; split; intros; try reflexivity; lia.
  - unfold Image_wf in Hwf. rewrite Hpx in Hwf. destruct Hwf as [Hw Hh].
    replace (Z.to_nat (Y2 - Y1)) with 0%nat by lia. cbn [Nat.eqb orb].
    exists this. repeat split; try reflexivity; try lia.
    unfold Image_wf. now rewrite Hpx.
Qed.

End FillTheorem.

(** ** What a blit leaves alone *)

Lemma same_shape_refl (w : World) : same_shape w w.
Proof. unfold same_shape. auto. Qed.

Lemma same_shape_trans (w1 w2 w3 : World) :
  same_shape w1 w2 -> same_shape w2 w3 -> same_shape w1 w3.
Proof. unfold same_shape. intros (? & ? & ?) (? & ? & ?). repeat split; congruence. Qed.

Lemma dst_read_shape (i : Z) (w w' : World) (c : Color32) :
  dst_read i w = Some (c, w') -> same_shape w w' /\ w_error w' = w_error w.
Proof.
  unfold dst_read. destruct (pixels (w_dst w)) as [px|]; [| discriminate].
  cbn [mbind option_bind]. destruct (buffer_read px i); [| discriminate].
  cbn [mbind option_bind]. intros [= _ <-]. split; [unfold same_shape; cbn; auto | reflexivity].
Qed.

Lemma dst_write_shape (i : Z) (c : Color32) (w w' : World) :
  dst_write i c w = Some w' -> same_shape w w' /\ w_error w' = w_error w.
Proof.
  unfold dst_write. destruct (pixels (w_dst w)) as [px|] eqn:E; [| discriminate].
  cbn [mbind option_bind]. destruct (buffer_write px i c) as [px'|] eqn:Ew; [| discriminate].
  cbn [mbind option_bind]. intros [= <-]. unfold same_shape. cbn. rewrite E. cbn.
  rewrite (buffer_write_length _ _ _ _ Ew). auto.
Qed.

(** A pixel has one row and one column. *)
Lemma offset_unique (W r1 c1 r2 c2 : Z) :
  0 <= c1 < W -> 0 <= c2 < W -> W * r1 + c1 = W * r2 + c2 -> r1 = r2 /\ c1 = c2.
Proof.
  intros H1 H2 E. assert (r1 = r2); [| split; [assumption | subst; lia]].
  destruct (Z_lt_le_dec r1 r2); [assert (W * r1 + W <= W * r2) by nia; lia |].
  destruct (Z_lt_le_dec r2 r1); [assert (W * r2 + W <= W * r1) by nia; lia |]. lia.
Qed.

Section BlitFrame.
Context {Blender_t Sampler_t : Type} `{!Blender Blender_t, !Sampler Sampler_t}.
Variables (pBlend : Blender_t) (pSample : Sampler_t) (pSrc : Image).

Lemma blit_pixel_frame (dpix pDx1 x : Z) (u v : F32.float) (w w' : World) :
  blit_pixel pBlend pSample pSrc dpix pDx1 x u v w = Some w' ->
  same_shape w w' /\ w_error w' = w_error w /\
  forall j : Z, j <> dpix + wrap32 (x + pDx1) -> dst_pixel w' j = dst_pixel w j.
Proof.
  unfold blit_pixel.
  destruct (dst_read (dpix + wrap32 (x + pDx1)) w) as [[d w1]|] eqn:Er; [| discriminate].
  cbn [mbind option_bind]. destruct (sample pSample pSrc u v); [| discriminate].
  cbn [mbind option_bind]. intros Hw.
  destruct (dst_read_shape _ _ _ _ Er) as [Hs1 He1].
  destruct (dst_write_shape _ _ _ _ Hw) as [Hs2 He2].
  split; [| split].
  - eapply same_shape_trans; [exact Hs1 | exact Hs2].
  - rewrite He2. exact He1.
  - intros j Hne. rewrite (dst_write_other _ j _ _ _ Hw Hne), !dst_pixel_log.
    eapply dst_read_pixel; eassumption.
Qed.

Lemma blit_row_frame (n : nat) (dpix pDx1 x : Z) (u du v : F32.float) (w w' : World) :
  blit_row pBlend pSample pSrc n dpix pDx1 x u du v w = Some w' ->
  0 <= x -> 0 <= pDx1 -> x + Z.of_nat n + pDx1 <= Sint32_max + 1 ->
  same_shape w w' /\ w_error w' = w_error w /\
  forall j : Z,
    ~ (dpix + pDx1 + x <= j < dpix + pDx1 + x + Z.of_nat n) ->
    dst_pixel w' j = dst_pixel w j.
Proof.
  revert x u w. induction n as [|n IH]; intros x u w; cbn [blit_row].
  - intros [= <-] _ _ _. split; [apply same_shape_refl |]. auto.
  - destruct (blit_pixel pBlend pSample pSrc dpix pDx1 x u v w) as [w1|] eqn:E;
      [| discriminate].
    cbn [mbind option_bind]. intros Hrow Hx HD Hmax.
    destruct (blit_pixel_frame _ _ _ _ _ _ _ E) as (Hs1 & He1 & Hp1).
    destruct (IH (x + 1) _ w1 Hrow) as (Hs2 & He2 & Hp2); [lia | lia | lia |].
    split; [eapply same_shape_trans; eassumption |]. split; [congruence |].
    intros j Hj. rewrite Hp2 by lia. apply Hp1.
    rewrite wrap32_small by (unfold is_Sint32, Sint32_min, Sint32_max in *; lia). lia.
Qed.

Lemma blit_rows_frame (n : nat) (MAXX dpix DST_WIDTH pDx1 : Z) (u1 du v dv : F32.float)
    (w w' : World) :
  blit_rows pBlend pSample pSrc n MAXX dpix DST_WIDTH pDx1 u1 du v dv w = Some w' ->
  0 <= pDx1 -> 0 <= MAXX -> pDx1 + MAXX <= Sint32_max + 1 ->
  same_shape w w' /\ w_error w' = w_error w /\
  forall j : Z,
    (forall k : Z, 0 <= k < Z.of_nat n ->
       ~ (dpix + k * DST_WIDTH + pDx1 <= j < dpix + k * DST_WIDTH + pDx1 + MAXX)) ->
    dst_pixel w' j = dst_pixel w j.
Proof.
  revert dpix v w. induction n as [|n IH]; intros dpix v w; cbn [blit_rows].
  - intros [= <-] _ _ _. split; [apply same_shape_refl |]. auto.
  - destruct (blit_row pBlend pSample pSrc (Z.to_nat MAXX) dpix pDx1 0 u1 du v w)
      as [w1|] eqn:E; [| discriminate].
    cbn [mbind option_bind]. intros Hrows HD HM Hmax.
    destruct (blit_row_frame _ _ _ _ _ _ _ _ _ E) as (Hs1 & He1 & Hp1); [lia | lia | lia |].
    destruct (IH _ _ w1 Hrows) as (Hs2 & He2 & Hp2); [lia | lia | lia |].
    split; [eapply same_shape_trans; eassumption |]. split; [congruence |].
    intros j Hj. rewrite Hp2.
    + apply Hp1. specialize (Hj 0 ltac:(lia)). lia.
    + intros k Hk. specialize (Hj (k + 1) ltac:(lia)). lia.
Qed.

(** X2. Whenever [Blit] returns, the destination has kept its extents and its
    buffer size, and every pixel of the canvas outside the destination
    rectangle (its end points in either order, clipped to the canvas) is as
    it was; the error message changes only for a source or destination
    without a buffer. *)
Theorem Blit_frame (pDx1 pDy1 pDx2 pDy2 pSx1 pSy1 pSx2 pSy2 : Z) (w w' : World) :
  Image_wf (w_dst w) ->
  is_Sint32 pDx1 -> is_Sint32 pDy1 -> is_Sint32 pDx2 -> is_Sint32 pDy2 ->
  Blit pBlend pSample pSrc pDx1 pDy1 pDx2 pDy2 pSx1 pSy1 pSx2 pSy2 w = Some w' ->
  same_shape w w' /\
  (IsGood pSrc = true -> IsGood (w_dst w) = true -> w_error w' = w_error w) /\
  forall x y : Z, in_canvas (w_dst w) x y ->
    ~ in_clipped (w_dst w) (Z.min pDx1 pDx2) (Z.min pDy1 pDy2)
        (Z.max pDx1 pDx2) (Z.max pDy1 pDy2) x y ->
    Image_pixel (w_dst w') x y = Image_pixel (w_dst w) x y.
Proof.
  intros Hwf Hx1 Hy1 Hx2 Hy2. unfold Blit.
  destruct (IsBad pSrc || IsBad (w_dst w)) eqn:Hbad.
  - intros [= <-]. split; [unfold same_shape; cbn; auto |]. split; [| reflexivity].
    intros Hs Hd. rewrite !IsBad_IsGood, Hs, Hd in Hbad. discriminate.
  - cbv zeta.
    match goal with |- context [flip_and_clip_min pDx1 pDx2 ?a ?b ?c] =>
      destruct (flip_and_clip_min_span pDx1 pDx2 a b c) as (u1' & u2' & ->) end.
    match goal with |- context [flip_and_clip_min pDy1 pDy2 ?a ?b ?c] =>
      destruct (flip_and_clip_min_span pDy1 pDy2 a b c) as (v1' & v2' & ->) end.
    apply orb_false_iff in Hbad as [_ Hd]. rewrite IsBad_IsGood in Hd.
    apply negb_false_iff in Hd. unfold IsGood in Hd.
    destruct (pixels (w_dst w)) as [px|] eqn:Hpx; [| discriminate].
    destruct (Image_wf_good _ px Hpx Hwf) as (Hw & Hh & Hn & Hwrap & Hlen).
    unfold in_canvas, in_clipped, GetWidth, GetHeight, Image_pixel in *.
    set (W := width (w_dst w)) in *. set (H := height (w_dst w)) in *.
    unfold is_Sint32, Sint32_min, Sint32_max in *.
    set (X1 := Z.max 0 (Z.min pDx1 pDx2)). set (Y1 := Z.max 0 (Z.min pDy1 pDy2)).
    set (X2 := if W <? Z.max pDx1 pDx2 then W else Z.max pDx1 pDx2).
    set (Y2 := if H <? Z.max pDy1 pDy2 then H else Z.max pDy1 pDy2).
    assert (HX2 : X2 = Z.min W (Z.max pDx1 pDx2))
      by (unfold X2; destruct (Z.ltb_spec W (Z.max pDx1 pDx2)); lia).
    assert (HY2 : Y2 = Z.min H (Z.max pDy1 pDy2))
      by (unfold Y2; destruct (Z.ltb_spec H (Z.max pDy1 pDy2)); lia).
    rewrite <- HX2, <- HY2. 
    rewrite (wrap32_small (Y2 - Y1)), (wrap32_small (X2 - X1))
      by (unfold is_Sint32, Sint32_min, Sint32_max; lia).
    destruct (Z.ltb_spec (X2 - X1) 0) as [HMX | HMX];
      [| destruct (Z.ltb_spec (Y2 - Y1) 0) as [HMY | HMY]]; cbn [orb].
    + intros [= <-]. split; [apply same_shape_refl |]. auto.
    + intros [= <-]. split; [apply same_shape_refl |]. auto.
    + intros Hrows.
      destruct (blit_rows_frame _ _ _ _ _ _ _ _ _ _ _ Hrows) as (Hs & He & Hp);
        [lia | lia | unfold Sint32_max; lia |].
      split; [exact Hs |]. split; [auto |].
      intros x y [Hx Hy] Hout.
      destruct Hs as (HsW & _). rewrite HsW. fold W.
      apply Hp. intros k Hk Hin. apply Hout. clear Hp Hrows.
      destruct (Z_le_gt_dec (Y2 - Y1) 0) as [Hz | Hpos]; [lia |].
      assert (Hoff : pixel_offset (w_dst w) Y1 0 = W * Y1).
      { unfold pixel_offset. fold W. rewrite wrap32_small; [lia |].
        destruct (row_bounds W H Y1) as [B1 B2]; [lia | lia |].
        unfold is_Sint32, Sint32_min, Sint32_max. lia. }
      rewrite Hoff in Hin.
      destruct (offset_unique W y x (Y1 + k) (W * y + x - (W * Y1 + k * W)))
        as [Hrow Hcol]; [lia | lia | lia |].
      subst y. lia.
Qed.

End BlitFrame.

(** ** Create, Copy, ReverseByteorder *)

Lemma Create_bad (mem_ok : bool) (pWidth pHeight : Z) (this : Image)
    (err : option ErrorMessage) :
  pixels (fst (Create mem_ok pWidth pHeight this err)) = None ->
  fst (Create mem_ok pWidth pHeight this err) = Image_empty /\
  is_Some (snd (Create mem_ok pWidth pHeight this err)).
Proof.
  unfold Create, new_Color32.
  destruct ((0 <? pWidth) && (pWidth <=? MaxDimension) &&
            (0 <? pHeight) && (pHeight <=? MaxDimension)); [| cbn; eauto].
  destruct ((0 <=? wrap32 (pWidth * pHeight)) && mem_ok); cbn; [discriminate | eauto].
Qed.

(** X3. [Create] never leaves a half-made image: it ends either with a buffer
    of exactly [pWidth * pHeight] zero pixels, the extents asked for and
    the error message untouched, or with no buffer, no extent and an error
    message -- "Invalid size" exactly when an extent is outside
    [1, MaxDimension]. *)
Theorem Create_outcome (mem_ok : bool) (pWidth pHeight : Z) (this : Image)
    (err : option ErrorMessage) :
  let r := Create mem_ok pWidth pHeight this err in
  let in_range := 0 < pWidth <= MaxDimension /\ 0 < pHeight <= MaxDimension in
  (r = (Image_of pWidth pHeight (replicate (Z.to_nat (pWidth * pHeight)) Color32_zero), err) /\
   in_range /\ pWidth * pHeight <= Sint32_max /\ mem_ok = true) \/
  (r = (Image_empty, Some (MsgThis "Invalid size")) /\ ~ in_range) \/
  (r = (Image_empty, Some MsgThisWhat) /\ in_range).
Proof.
  cbv zeta. unfold Create, new_Color32, MaxDimension, USHRT_MAX.
  destruct (Z.ltb_spec 0 pWidth), (Z.leb_spec pWidth 65535),
    (Z.ltb_spec 0 pHeight), (Z.leb_spec pHeight 65535); cbn [andb];
    try (right; left; split; [reflexivity | lia]).
  destruct (Z.leb_spec 0 (wrap32 (pWidth * pHeight))) as [Hn | Hn], mem_ok; cbn [andb];
    try (right; right; split; [reflexivity | lia]).
  left.
  assert (Hlt : pWidth * pHeight < 2 ^ 31).
  { destruct (Z_lt_ge_dec (pWidth * pHeight) (2 ^ 31)) as [| Hge]; [assumption |].
    exfalso. unfold wrap32 in Hn.
    assert (pWidth * pHeight < 2 ^ 32) by nia.
    replace ((pWidth * pHeight + 2 ^ 31) mod 2 ^ 32)
      with (pWidth * pHeight + 2 ^ 31 - 2 ^ 32) in Hn
      by (apply Z.mod_unique with (q := 1); lia).
    lia. }
  rewrite wrap32_small by (unfold is_Sint32, Sint32_min, Sint32_max; nia).
  unfold Sint32_max. repeat split; try reflexivity; lia.
Qed.

Lemma copy_pixels_spec (n : nat) (i : nat) (src dst : list Color32) :
  length src = length dst -> (i + n = length src)%nat ->
  copy_pixels n (Z.of_nat i) (Some src) dst = Some (take i dst ++ drop i src).
Proof.
  revert i dst. induction n as [|n IH]; intros i dst Hlen Hn.
  - cbn [copy_pixels]. rewrite drop_ge by lia. rewrite take_ge by lia.
    now rewrite app_nil_r.
  - cbn [copy_pixels mbind option_bind].
    destruct (lookup_lt_is_Some_2 src i) as [c Hc]; [lia |].
    assert (Hr : buffer_read src (Z.of_nat i) = Some c).
    { unfold buffer_read. destruct (Z.ltb_spec (Z.of_nat i) 0); [lia |].
      now rewrite Nat2Z.id. }
    rewrite Hr. cbn [mbind option_bind].
    rewrite buffer_write_Some by lia. cbn [mbind option_bind]. rewrite Nat2Z.id.
    replace (Z.of_nat i + 1) with (Z.of_nat (S i)) by lia.
    rewrite IH by (rewrite ?length_insert; lia).
    f_equal. rewrite (drop_S src c i Hc).
    rewrite (take_S_r (<[i:=c]> dst) i c) by (apply list_lookup_insert_eq; lia).
    rewrite take_insert_ge by lia. now rewrite <- app_assoc.
Qed.

(** X4. [Copy] of an image that holds the invariant: a good source is
    duplicated, extents and pixels, when the allocation succeeds; otherwise
    the call returns false and leaves the target with no buffer and no
    extent. *)
Theorem Copy_duplicates (mem_ok : bool) (pImage this : Image) (err : option ErrorMessage) :
  Image_wf pImage ->
  Copy mem_ok pImage this err =
    Some (if IsGood pImage && mem_ok then (true, pImage, err)
          else (false, Image_empty,
                Some (if IsGood pImage then MsgThisWhat else MsgThis "Invalid size"))).
Proof.
  intros Hwf. unfold Copy, IsGood.
  destruct (pixels pImage) as [px|] eqn:Hpx.
  - destruct (Image_wf_good pImage px Hpx Hwf) as (Hw & Hh & Hn & Hwrap & Hlen).
    unfold Create, new_Color32, MaxDimension, USHRT_MAX. cbn [Free].
    replace ((0 <? width pImage) && (width pImage <=? 65535) && (0 <? height pImage) &&
             (height pImage <=? 65535)) with true
      by (symmetry; rewrite !andb_true_iff; repeat split;
          (apply Z.ltb_lt || apply Z.leb_le); lia).
    rewrite Hwrap.
    replace (0 <=? width pImage * height pImage) with true
      by (symmetry; apply Z.leb_le; lia).
    destruct mem_ok; cbn [andb pixels width height]; [| reflexivity].
    rewrite Hwrap.
    rewrite (copy_pixels_spec _ 0 px) by (rewrite ?length_replicate; lia).
    cbn [mbind option_bind take drop app].
    destruct pImage as [px0 w h]. cbn in *. now subst.
  - unfold Image_wf in Hwf. rewrite Hpx in Hwf. destruct Hwf as [Hw Hh].
    unfold Create. rewrite Hw, Hh. reflexivity.
Qed.

Lemma swap_pixel_bytes_rev (b0 b1 b2 b3 : byte) :
  swap_pixel_bytes [b0; b1; b2; b3] = [b3; b2; b1; b0].
Proof. reflexivity. Qed.

(** On either channel order the swaps exchange red with green and blue
    with alpha. *)
Lemma reverse_pixel_channels (p : Platform) (c : Color32) :
  reverse_pixel p c = mkColor32 (green c) (red c) (alpha c) (blue c).
Proof.
  unfold reverse_pixel, Color32_bytes, Color32_of_bytes.
  destruct (channels_of p); reflexivity.
Qed.

Lemma reverse_pixel_involutive (p : Platform) (c : Color32) :
  reverse_pixel p (reverse_pixel p c) = c.
Proof. rewrite !reverse_pixel_channels. now destruct c. Qed.

Lemma reverse_pixels_spec (p : Platform) (n : nat) (i : nat) (px : list Color32) :
  (i + n = length px)%nat ->
  reverse_pixels p n (Z.of_nat i) px = Some (take i px ++ (reverse_pixel p <$> drop i px)).
Proof.
  revert i px. induction n as [|n IH]; intros i px Hn.
  - cbn [reverse_pixels]. rewrite drop_ge by lia. rewrite take_ge by lia.
    now rewrite app_nil_r.
  - cbn [reverse_pixels].
    destruct (lookup_lt_is_Some_2 px i) as [c Hc]; [lia |].
    assert (Hr : buffer_read px (Z.of_nat i) = Some c).
    { unfold buffer_read. destruct (Z.ltb_spec (Z.of_nat i) 0); [lia |].
      now rewrite Nat2Z.id. }
    rewrite Hr. cbn [mbind option_bind].
    rewrite buffer_write_Some by lia. cbn [mbind option_bind]. rewrite Nat2Z.id.
    replace (Z.of_nat i + 1) with (Z.of_nat (S i)) by lia.
    rewrite IH by (rewrite ?length_insert; lia).
    f_equal. rewrite (drop_S px c i Hc). cbn [fmap list_fmap].
    rewrite (take_S_r (<[i:=reverse_pixel p c]> px) i (reverse_pixel p c))
      by (apply list_lookup_insert_eq; lia).
    rewrite take_insert_ge by lia. rewrite drop_insert_lt by lia.
    now rewrite <- app_assoc.
Qed.

Lemma ReverseByteorder_good (p : Platform) (this : Image) (px : list Color32) :
  pixels this = Some px -> Image_wf this ->
  ReverseByteorder p this =
    Some (mkImage (Some (reverse_pixel p <$> px)) (width this) (height this)).
Proof.
  intros Hpx Hwf. unfold ReverseByteorder. rewrite Hpx.
  destruct (Image_wf_good this px Hpx Hwf) as (Hw & Hh & Hn & Hwrap & Hlen).
  rewrite Hwrap, (reverse_pixels_spec p _ 0 px) by lia. reflexivity.
Qed.

(** X5. [ReverseByteorder] on an image that holds the invariant exchanges, in
    every pixel, red with green and blue with alpha, whatever the channel
    order of the platform, keeps the extents, and undoes itself when
    applied twice. *)
Theorem ReverseByteorder_involutive (p : Platform) (this : Image) :
  Image_wf this ->
  exists this' : Image,
    ReverseByteorder p this = Some this' /\
    width this' = width this /\ height this' = height this /\ Image_wf this' /\
    pixels this' =
      fmap (M := list) (fun c => mkColor32 (green c) (red c) (alpha c) (blue c))
        <$> pixels this /\
    ReverseByteorder p this' = Some this.
Proof.
  intros Hwf. destruct (pixels this) as [px|] eqn:Hpx.
  - rewrite (ReverseByteorder_good p this px Hpx Hwf).
    assert (Hwf' : Image_wf (mkImage (Some (reverse_pixel p <$> px)) (width this) (height this))).
    { unfold Image_wf in *. rewrite Hpx in Hwf. cbn [pixels width height].
      now rewrite length_fmap. }
    eexists. split; [reflexivity |]. cbn [width height pixels].
    split; [reflexivity |]. split; [reflexivity |]. split; [exact Hwf' |]. split.
    + cbn. f_equal. apply list_fmap_ext. intros _ c _. apply reverse_pixel_channels.
    + rewrite (ReverseByteorder_good p
                 (mkImage (Some (reverse_pixel p <$> px)) (width this) (height this))
                 (reverse_pixel p <$> px) eq_refl Hwf').
      cbn [width height]. rewrite <- list_fmap_compose.
      rewrite (list_fmap_ext _ id px) by (intros _ c _; apply reverse_pixel_involutive).
      rewrite list_fmap_id. destruct this as [px0 w h]. cbn in *. now subst.
  - unfold ReverseByteorder. rewrite Hpx.
    unfold Image_wf in Hwf. rewrite Hpx in Hwf. destruct Hwf as [Hw Hh].
    rewrite Hw, Hh. cbn. exists this. rewrite Hpx, Hw, Hh. cbn.
    repeat split; try reflexivity; try assumption.
    unfold Image_wf. now rewrite Hpx.
Qed.

(** ** Load and Save on any file *)

(** A read from the position that follows [pre]. *)
Lemma ifstream_read_at (pre rest bytes : list byte) (n k : Z) :
  bytes = pre ++ rest -> k = Z.of_nat (length pre) ->
  fst (ifstream_read n (mk_ifstream bytes k false)) = take (Z.to_nat n) rest.
Proof.
  intros -> ->. unfold ifstream_read. cbn [failed pos content fst].
  now rewrite Nat2Z.id, drop_app_length.
Qed.

Lemma pixels_of_bytes_length (p : Platform) (n : nat) (bs : list byte) :
  length (pixels_of_bytes p n bs) = n.
Proof. revert bs. induction n as [|n IH]; intros bs; cbn; [reflexivity | now rewrite IH]. Qed.

Lemma pixels_bytes_app (p : Platform) (a b : list Color32) :
  pixels_bytes p (a ++ b) = pixels_bytes p a ++ pixels_bytes p b.
Proof. unfold pixels_bytes. now rewrite map_app, concat_app. Qed.

(** [Load] of a file that starts with the tag 4 and two extents [Create]
    accepts, whatever bytes follow: the pixels are the bytes read laid over
    a buffer of zero pixels. *)
Lemma Load_header (p : Platform) (pFile : string) (fs : FileSys) (other : Image)
    (err : option ErrorMessage) (w h : Z) (data : list byte) :
  0 < w <= 65535 -> 0 < h <= 65535 -> w * h <= 2147483647 ->
  files fs !! pFile =
    Some (Sint32_bytes p sizeof_Color32 ++ Sint32_bytes p w ++ Sint32_bytes p h ++ data) ->
  Load p true pFile fs other err =
    (true,
     Image_of w h
       (pixels_of_bytes p (Z.to_nat (w * h))
          (overwrite (pixels_bytes p (replicate (Z.to_nat (w * h)) Color32_zero))
             (take (Z.to_nat (w * h * sizeof_Color32)) data))),
     err).
Proof.
  intros Hw Hh Hn Hfile.
  assert (HS : forall z, 0 <= z <= 2147483647 -> is_Sint32 z)
    by (unfold is_Sint32, Sint32_min, Sint32_max; lia).
  assert (Hwrap : wrap32 (w * h) = w * h) by (apply wrap32_small, HS; nia).
  unfold Load, ifstream_open. rewrite Hfile. cbn [mbind option_bind].
  set (tag := Sint32_bytes p sizeof_Color32) in *.
  set (wb := Sint32_bytes p w) in *.
  set (hb := Sint32_bytes p h) in *.
  set (bytes := tag ++ wb ++ hb ++ data).
  assert (Ltag : length tag = 4%nat) by apply Sint32_bytes_length.
  assert (Lwb : length wb = 4%nat) by apply Sint32_bytes_length.
  assert (Lhb : length hb = 4%nat) by apply Sint32_bytes_length.
  assert (E1 : bytes = [] ++ tag ++ wb ++ hb ++ data) by reflexivity.
  assert (E2 : bytes = tag ++ wb ++ hb ++ data) by reflexivity.
  assert (E3 : bytes = (tag ++ wb) ++ hb ++ data)
    by (unfold bytes; now rewrite <- !app_assoc).
  assert (E4 : bytes = (tag ++ wb ++ hb) ++ data)
    by (unfold bytes; now rewrite <- !app_assoc).
  rewrite (read_Sint32_chunk p [] _ bytes 0 sizeof_Color32 0 E1 eq_refl
             (HS sizeof_Color32 ltac:(unfold sizeof_Color32; lia))).
  rewrite Z.eqb_refl.
  rewrite (read_Sint32_chunk p tag _ bytes (width other) w (0 + 4) E2
             ltac:(rewrite Ltag; reflexivity) (HS w ltac:(lia))).
  rewrite (read_Sint32_chunk p (tag ++ wb) _ bytes (height other) h (0 + 4 + 4) E3
             ltac:(rewrite length_app, Ltag, Lwb; reflexivity) (HS h ltac:(lia))).
  cbn [width height pixels].
  unfold Create, new_Color32, MaxDimension, USHRT_MAX. cbn [Free].
  replace ((0 <? w) && (w <=? 65535) && (0 <? h) && (h <=? 65535)) with true
    by (symmetry; rewrite !andb_true_iff; repeat split; (apply Z.ltb_lt || apply Z.leb_le); lia).
  rewrite Hwrap.
  replace ((0 <=? w * h) && true) with true
    by (symmetry; apply andb_true_iff; split; [apply Z.leb_le; nia | reflexivity]).
  cbn [pixels width height]. rewrite Hwrap.
  pose proof (ifstream_read_at (tag ++ wb ++ hb) data bytes (w * h * sizeof_Color32)
                (0 + 4 + 4 + 4) E4
                ltac:(rewrite !length_app, Ltag, Lwb, Lhb; reflexivity)) as Hread.
  destruct (ifstream_read (w * h * sizeof_Color32) (mk_ifstream bytes (0 + 4 + 4 + 4) false))
    as [got fin]. cbn [fst] in Hread. subst got.
  rewrite length_replicate. reflexivity.
Qed.

(** X6. [Load] does not notice a file cut short after whole pixel records: it
    returns true with an image of the announced extents, the records that
    are there, and zero pixels in place of the missing ones. *)
Theorem Load_short_file_zero_fills (p : Platform) (pFile : string) (fs : FileSys)
    (other : Image) (err : option ErrorMessage) (w h : Z) (px : list Color32) :
  0 < w <= MaxDimension -> 0 < h <= MaxDimension -> w * h <= Sint32_max ->
  Z.of_nat (length px) <= w * h ->
  files fs !! pFile =
    Some (Sint32_bytes p sizeof_Color32 ++ Sint32_bytes p w ++ Sint32_bytes p h ++
          pixels_bytes p px) ->
  Load p true pFile fs other err =
    (true, Image_of w h (px ++ replicate (Z.to_nat (w * h) - length px) Color32_zero), err).
Proof.
  unfold MaxDimension, USHRT_MAX, Sint32_max. intros Hw Hh Hn Hlen Hfile.
  rewrite (Load_header p pFile fs other err w h (pixels_bytes p px) Hw Hh Hn Hfile).
  do 3 f_equal.
  rewrite take_ge by (rewrite pixels_bytes_length; unfold sizeof_Color32; lia).
  unfold overwrite.
  replace (replicate (Z.to_nat (w * h)) Color32_zero)
    with (replicate (length px) Color32_zero ++
          replicate (Z.to_nat (w * h) - length px) Color32_zero)
    by (rewrite <- replicate_add; f_equal; lia).
  rewrite pixels_bytes_app, drop_app_length'
    by (rewrite !pixels_bytes_length, length_replicate; reflexivity).
  set (zs := replicate (Z.to_nat (w * h) - length px) Color32_zero).
  assert (Htotal : Z.to_nat (w * h) = length (px ++ zs))
    by (unfold zs; rewrite length_app, length_replicate; lia).
  rewrite Htotal, <- pixels_bytes_app.
  rewrite <- (app_nil_r (pixels_bytes p (px ++ zs))).
  apply pixels_of_bytes_bytes.
Qed.

Lemma Sint32_bytes_same_order (p1 p2 : Platform) (z : Z) :
  SDL_BYTEORDER p1 = SDL_BYTEORDER p2 -> Sint32_bytes p1 z = Sint32_bytes p2 z.
Proof. unfold Sint32_bytes. now intros ->. Qed.

Lemma Color32_of_bytes_other_order (p1 p2 : Platform) (c : Color32) :
  channels_of p1 <> channels_of p2 ->
  Color32_of_bytes p2 (Color32_bytes p1 c) =
    Some (mkColor32 (green c) (red c) (alpha c) (blue c)).
Proof.
  unfold Color32_of_bytes, Color32_bytes.
  destruct (channels_of p1), (channels_of p2); intros H; try reflexivity; now destruct H.
Qed.

Lemma pixels_of_bytes_other_order (p1 p2 : Platform) (px : list Color32) (rest : list byte) :
  channels_of p1 <> channels_of p2 ->
  pixels_of_bytes p2 (length px) (pixels_bytes p1 px ++ rest) =
    (fun c => mkColor32 (green c) (red c) (alpha c) (blue c)) <$> px.
Proof.
  intros Hne. unfold pixels_bytes. induction px as [|c px IH]; [reflexivity |].
  cbn [map concat length pixels_of_bytes fmap list_fmap]. rewrite <- app_assoc.
  rewrite take_app_length' by (symmetry; apply Color32_bytes_length).
  rewrite drop_app_length' by (symmetry; apply Color32_bytes_length).
  rewrite (Color32_of_bytes_other_order p1 p2 c Hne). cbn [default]. f_equal. exact IH.
Qed.

(** X7. A file saved, the device taking every byte, on a platform with the
    same byte order and the other channel order loads with red and green,
    blue and alpha exchanged in every pixel, and [ReverseByteorder] then
    gives the saved image back. *)
Theorem Load_other_channel_order_then_reverse (p1 p2 : Platform) (pFile : string)
    (this other : Image) (px : list Color32) (fs fs' : FileSys)
    (err err' err2 : option ErrorMessage) :
  SDL_BYTEORDER p1 = SDL_BYTEORDER p2 -> channels_of p1 <> channels_of p2 ->
  pixels this = Some px -> Image_wf this ->
  Save p1 None pFile this fs err = Some (true, fs', err') ->
  exists loaded : Image,
    Load p2 true pFile fs' other err2 = (true, loaded, err2) /\
    width loaded = width this /\ height loaded = height this /\
    pixels loaded = Some ((fun c => mkColor32 (green c) (red c) (alpha c) (blue c)) <$> px) /\
    ReverseByteorder p2 loaded = Some this.
Proof.
  intros Horder Hchan Hpx Hwf Hsave.
  destruct (Image_wf_good this px Hpx Hwf) as (Hw & Hh & Hn & Hwrap & Hlen).
  destruct (Save_wf p1 pFile this px fs fs' err err' Hpx Hwf Hsave) as [_ Hfile].
  rewrite !(Sint32_bytes_same_order p1 p2 _ Horder) in Hfile.
  rewrite (Load_header p2 pFile fs' other err2 (width this) (height this)
             (pixels_bytes p1 px) ltac:(lia) ltac:(lia) ltac:(lia) Hfile).
  rewrite take_ge by (rewrite pixels_bytes_length; unfold sizeof_Color32; lia).
  rewrite overwrite_all by (rewrite !pixels_bytes_length, length_replicate; lia).
  replace (Z.to_nat (width this * height this)) with (length px) by lia.
  rewrite <- (app_nil_r (pixels_bytes p1 px)), (pixels_of_bytes_other_order p1 p2 px [] Hchan).
  unfold Image_of.
  eexists. split; [reflexivity |]. cbn [width height pixels].
  split; [reflexivity |]. split; [reflexivity |]. split; [reflexivity |].
  assert (Hwf' : Image_wf (mkImage
             (Some ((fun c => mkColor32 (green c) (red c) (alpha c) (blue c)) <$> px))
             (width this) (height this))).
  { unfold Image_wf in *. rewrite Hpx in Hwf. cbn [pixels width height].
    now rewrite length_fmap. }
  rewrite (ReverseByteorder_good p2 _ _ (eq_refl : pixels (mkImage _ _ _) = Some _) Hwf').
  cbn [width height].
  rewrite <- list_fmap_compose.
  rewrite (list_fmap_ext _ id px)
    by (intros _ c _; cbn; rewrite reverse_pixel_channels; now destruct c).
  rewrite list_fmap_id. destruct this as [px0 w h]. cbn in *. now subst.
Qed.

Lemma Sint32_tag_other_byte_order (p1 p2 : Platform) :
  SDL_BYTEORDER p2 = flip_ByteOrder (SDL_BYTEORDER p1) ->
  Sint32_of_bytes p2 (Sint32_bytes p1 sizeof_Color32) = 67108864.
Proof.
  unfold Sint32_of_bytes, Sint32_bytes. intros ->.
  destruct (SDL_BYTEORDER p1); vm_compute; reflexivity.
Qed.

(** X8. A file saved, the device taking every byte, on a platform of the
    other byte order is refused: the type-size tag reads as 0x04000000 and
    not as 4, so [Load] returns false with the message "Format not
    recognized" and leaves the image with no buffer and no extent. *)
Theorem Load_other_byte_order_refused (p1 p2 : Platform) (mem_ok : bool) (pFile : string)
    (this other : Image) (px : list Color32) (fs fs' : FileSys)
    (err err' err2 : option ErrorMessage) :
  SDL_BYTEORDER p2 = flip_ByteOrder (SDL_BYTEORDER p1) ->
  pixels this = Some px -> Image_wf this ->
  Save p1 None pFile this fs err = Some (true, fs', err') ->
  Load p2 mem_ok pFile fs' other err2 =
    (false, Image_empty, Some (MsgThis "Format not recognized")).
Proof.
  intros Horder Hpx Hwf Hsave.
  destruct (Save_wf p1 pFile this px fs fs' err err' Hpx Hwf Hsave) as [_ Hfile].
  unfold Load, ifstream_open. rewrite Hfile. cbn [mbind option_bind].
  unfold read_Sint32.
  match goal with |- context [mk_ifstream ?b 0 false] => set (bytes := b) end.
  assert (E : bytes = [] ++ Sint32_bytes p1 sizeof_Color32 ++
                (Sint32_bytes p1 (width this) ++ Sint32_bytes p1 (height this) ++
                 pixels_bytes p1 px)) by reflexivity.
  rewrite (ifstream_read_chunk [] (Sint32_bytes p1 sizeof_Color32) _ bytes sizeof_Sint32 0
             E eq_refl) by (now rewrite Sint32_bytes_length).
  rewrite overwrite_all by (now rewrite !Sint32_bytes_length).
  rewrite (Sint32_tag_other_byte_order p1 p2 Horder). reflexivity.
Qed.

(** X9. However [Load] ends, the image holds the class invariant afterwards.
    It returns true only with a buffer in place; when the file cannot be
    opened the image is left exactly as it was; on every other failure the
    image has no buffer and no extent and an error message is set. *)
Theorem Load_outcome (p : Platform) (mem_ok : bool) (pFile : string) (fs : FileSys)
    (this : Image) (err : option ErrorMessage) :
  Image_wf this ->
  let r := Load p mem_ok pFile fs this err in
  Image_wf (snd (fst r)) /\
  ((fst (fst r) = true /\ IsGood (snd (fst r)) = true /\ is_Some (files fs !! pFile)) \/
   (r = (false, this, Some (MsgThis "Could not open file")) /\ files fs !! pFile = None) \/
   (fst (fst r) = false /\ snd (fst r) = Image_empty /\ is_Some (snd r) /\
    is_Some (files fs !! pFile))).
Proof.
  intros Hwf. cbv zeta. unfold Load, ifstream_open.
  destruct (files fs !! pFile) as [bytes|] eqn:Hfile; cbn [mbind option_bind].
  2: { split; [exact Hwf |]. right. left. auto. }
  destruct (read_Sint32 p 0 (mk_ifstream bytes 0 false)) as [typeSize fin1].
  destruct (typeSize =? sizeof_Color32).
  2: { cbn. split; [unfold Image_wf; cbn; lia |]. right. right. eauto. }
  destruct (read_Sint32 p (width this) fin1) as [w fin2].
  destruct (read_Sint32 p (height this) fin2) as [h fin3].
  cbn [width height pixels].
  pose proof (Create_wf mem_ok w h (mkImage (pixels this) w h) err) as Hc.
  pose proof (Create_bad mem_ok w h (mkImage (pixels this) w h) err) as Hb.
  destruct (Create mem_ok w h (mkImage (pixels this) w h) err) as [this1 err1].
  cbn [fst snd] in Hc, Hb.
  destruct (pixels this1) as [px1|] eqn:Hpx1.
  - destruct (ifstream_read _ fin3) as [got fin4]. cbn [fst snd].
    split; [| left; eauto].
    unfold Image_wf in *. rewrite Hpx1 in Hc. cbn [pixels width height].
    now rewrite pixels_of_bytes_length.
  - cbn [fst snd]. split; [exact Hc |]. right. right.
    destruct (Hb eq_refl) as [-> He]. eauto.
Qed.

(** ** Save *)




(** ** Stream::Refresh *)

(** X11. [Refresh] either succeeds, the handle keeping its path with a data
    start of 8, or fails because the file cannot be opened; a failure
    resets the handle, path included, so that no later [Refresh] can attach
    it again, even when the file is back. *)
Theorem Stream_Refresh_outcome (p : Platform) (fs : FileSys) (this : Stream) :
  let r := Stream_Refresh p fs this in
  (fst r = true /\ Stream_IsGood fs this = true /\
   s_file (snd r) = s_file this /\ s_dataStart (snd r) = 8) \/
  (r = (false, mkStream 0 0 "" 0) /\ Stream_IsGood fs this = false /\
   forall fs2 : FileSys, files fs2 !! ""%string = None ->
     Stream_Refresh p fs2 (snd r) = (false, mkStream 0 0 "" 0) /\
     Stream_IsGood fs2 (snd r) = false).
Proof.
  cbv zeta. unfold Stream_Refresh, Stream_IsGood, Stream_Load, ifstream_open.
  destruct (files fs !! s_file this) as [bytes|]; cbn [mbind option_bind].
  - left. destruct (read_Sint32 p (s_width this) _) as [w fin1].
    destruct (read_Sint32 p (s_height this) fin1) as [h fin2]. cbn. auto.
  - right. cbn [snd Stream_Free s_file]. split; [reflexivity |]. split; [reflexivity |].
    intros fs2 ->. auto.
Qed.

(** ** Single pixels: SetRGBA, SetRGB, Line between coinciding points *)

Lemma pixel_offset_in_canvas (this : Image) (px : list Color32) (x y : Z) :
  Image_wf this -> pixels this = Some px -> in_canvas this x y ->
  pixel_offset this y x = width this * y + x /\
  0 <= width this * y + x < Z.of_nat (length px).
Proof.
  unfold Image_wf, in_canvas, pixel_offset. intros Hwf Hpx [Hx Hy]. rewrite Hpx in Hwf.
  destruct Hwf as (Hw & Hh & Hmax & Hlen).
  assert (0 <= width this * y) by nia.
  assert (width this * y + width this <= width this * height this) by nia.
  rewrite wrap32_small by (unfold is_Sint32, Sint32_min, Sint32_max in *; lia). lia.
Qed.

(** One pixel of the canvas written: that pixel holds the new colour, the
    other pixels of the canvas are as before. *)
Lemma write_pixel_spec (this : Image) (px : list Color32) (pX pY : Z) (c : Color32) :
  Image_wf this -> pixels this = Some px -> in_canvas this pX pY ->
  exists px' : list Color32,
    buffer_write px (pixel_offset this pY pX) c = Some px' /\
    length px' = length px /\
    forall x y : Z, in_canvas this x y ->
      buffer_read px' (width this * y + x) =
        if (x =? pX) && (y =? pY) then Some c else buffer_read px (width this * y + x).
Proof.
  intros Hwf Hpx Hin.
  destruct (pixel_offset_in_canvas this px pX pY Hwf Hpx Hin) as [Hoff Hrange].
  rewrite Hoff. exists (<[Z.to_nat (width this * pY + pX) := c]> px).
  assert (Hw : buffer_write px (width this * pY + pX) c =
               Some (<[Z.to_nat (width this * pY + pX) := c]> px))
    by now apply buffer_write_Some.
  split; [exact Hw |]. split; [apply length_insert |].
  intros x y Hxy.
  destruct (pixel_offset_in_canvas this px x y Hwf Hpx Hxy) as [_ Hrange'].
  destruct (Z.eqb_spec x pX) as [-> | Hx]; cbn [andb].
  - destruct (Z.eqb_spec y pY) as [-> | Hy].
    + eapply buffer_write_same, Hw.
    + eapply buffer_write_other; [exact Hw |].
      intros E. destruct (offset_unique (width this) y pX pY pX) as [? _];
        [apply Hxy | apply Hin | exact E | contradiction].
  - eapply buffer_write_other; [exact Hw |].
    intros E. destruct (offset_unique (width this) y x pY pX) as [_ ?];
      [apply Hxy | apply Hin | exact E | contradiction].
Qed.

Lemma normalised_channels_checked :
  forallb (fun k : Z =>
    (u8 (F32.to_Uint8 (F32.mul (F32.div (F32.of_Z k) (F32.of_Z 255)) (F32.of_Z 255))) =? k) &&
    (u8 (F32.to_Uint8 (F32.of_Z k)) =? k)) byte_values = true.
Proof. vm_compute. reflexivity. Qed.

Lemma fchan_to_u8chan_normalised (k : Uint8) : fchan_to_u8chan (u8chan_normalised k) = k.
Proof.
  pose proof normalised_channels_checked as H. rewrite forallb_forall in H.
  specialize (H _ (u8_in_byte_values k)). apply andb_true_iff in H as [H _].
  apply Z.eqb_eq in H. apply u8_inj. exact H.
Qed.

Lemma to_Uint8_of_u8 (k : Uint8) : F32.to_Uint8 (F32.of_Z (u8 k)) = k.
Proof.
  pose proof normalised_channels_checked as H. rewrite forallb_forall in H.
  specialize (H _ (u8_in_byte_values k)). apply andb_true_iff in H as [_ H].
  apply Z.eqb_eq in H. apply u8_inj. exact H.
Qed.

(** X12. [SetRGBA] at a pixel of the canvas, given the four channels of a
    colour divided by 255 in single precision, stores exactly that colour:
    the product with 255.f truncates back to each channel value. The
    extents and the other pixels of the canvas stay. *)
Theorem SetRGBA_stores_normalised (this : Image) (pX pY : Z) (c : Color32) :
  Image_wf this -> in_canvas this pX pY ->
  exists this' : Image,
    SetRGBA pX pY (u8chan_normalised (red c)) (u8chan_normalised (green c))
      (u8chan_normalised (blue c)) (u8chan_normalised (alpha c)) this = Some this' /\
    width this' = width this /\ height this' = height this /\ Image_wf this' /\
    forall x y : Z, in_canvas this x y ->
      Image_pixel this' x y =
        if (x =? pX) && (y =? pY) then Some c else Image_pixel this x y.
Proof.
  intros Hwf Hin. unfold SetRGBA, Image_pixel.
  destruct (pixels this) as [px|] eqn:Hpx.
  2: { unfold Image_wf, in_canvas in *. rewrite Hpx in Hwf. lia. }
  cbn [mbind option_bind]. rewrite !fchan_to_u8chan_normalised.
  destruct (write_pixel_spec this px pX pY
              (mkColor32 (red c) (green c) (blue c) (alpha c)) Hwf Hpx Hin)
    as (px' & Hw & Hlen & Hrd).
  rewrite Hw. cbn [mbind option_bind]. eexists. split; [reflexivity |].
  cbn [width height pixels mbind option_bind].
  split; [reflexivity |]. split; [reflexivity |]. split.
  - unfold Image_wf in *. rewrite Hpx in Hwf. cbn [pixels width height]. rewrite Hlen. exact Hwf.
  - intros x y Hxy. rewrite (Hrd x y Hxy). now destruct c.
Qed.

(** X13. [SetRGB] at a pixel of the canvas, given the red, green and blue
    channels of a colour divided by 255 in single precision, stores exactly
    these three channels and keeps the alpha channel the pixel had. The
    extents and the other pixels of the canvas stay. *)
Theorem SetRGB_keeps_alpha (this : Image) (pX pY : Z) (c : Color32) :
  Image_wf this -> in_canvas this pX pY ->
  exists (this' : Image) (old : Color32),
    SetRGB pX pY (u8chan_normalised (red c)) (u8chan_normalised (green c))
      (u8chan_normalised (blue c)) this = Some this' /\
    Image_pixel this pX pY = Some old /\
    width this' = width this /\ height this' = height this /\ Image_wf this' /\
    forall x y : Z, in_canvas this x y ->
      Image_pixel this' x y =
        if (x =? pX) && (y =? pY)
        then Some (mkColor32 (red c) (green c) (blue c) (alpha old))
        else Image_pixel this x y.
Proof.
  intros Hwf Hin. unfold SetRGB, Image_pixel.
  destruct (pixels this) as [px|] eqn:Hpx.
  2: { unfold Image_wf, in_canvas in *. rewrite Hpx in Hwf. lia. }
  cbn [mbind option_bind]. rewrite !fchan_to_u8chan_normalised.
  destruct (pixel_offset_in_canvas this px pX pY Hwf Hpx Hin) as [Hoff Hrange].
  destruct (buffer_read_Some px (width this * pY + pX) Hrange) as [old Hold].
  destruct (write_pixel_spec this px pX pY
              (mkColor32 (red c) (green c) (blue c) (alpha old)) Hwf Hpx Hin)
    as (px' & Hw & Hlen & Hrd).
  exists (mkImage (Some px') (width this) (height this)), old.
  cbv zeta. rewrite Hoff in Hw |- *. rewrite Hold. cbn [mbind option_bind].
  rewrite Hw. cbn [mbind option_bind]. split; [reflexivity |].
  cbn [width height pixels mbind option_bind].
  split; [reflexivity |]. split; [reflexivity |]. split; [reflexivity |]. split.
  - unfold Image_wf in *. rewrite Hpx in Hwf. cbn [pixels width height]. rewrite Hlen. exact Hwf.
  - intros x y Hxy. exact (Hrd x y Hxy).
Qed.

Section LineFacts.
Context {Blender_t : Type} `{!Blender Blender_t}.
Variable pPred : Blender_t.

(** X14. [Line] between two coinciding end points blends the first colour into
    that one pixel when it is on the canvas, and changes nothing when it is
    not; the second colour is not used. *)
Theorem Line_single_point (fuel : nat) (pX pY : Z) (pColor1 pColor2 : Color32)
    (this : Image) :
  Image_wf this ->
  exists this' : Image,
    Line pPred fuel pX pY pColor1 pX pY pColor2 this = Some this' /\
    width this' = width this /\ height this' = height this /\
    IsGood this' = IsGood this /\
    forall x y : Z, in_canvas this x y ->
      Image_pixel this' x y =
        if (x =? pX) && (y =? pY)
        then (fun old => blend pPred old pColor1) <$> Image_pixel this x y
        else Image_pixel this x y.
Proof.
  intros Hwf. unfold Line. rewrite !Z.sub_diag.
  change (F32_eqb (F32.of_Z (wrap32 0)) F32.zero) with true. cbn [andb].
  rewrite !to_Uint8_of_u8.
  destruct ((0 <=? pX) && (pX <? width this) && (0 <=? pY) && (pY <? height this)) eqn:E.
  - rewrite !andb_true_iff in E. destruct E as [[[H0 H1] H2] H3].
    apply Z.leb_le in H0, H2. apply Z.ltb_lt in H1, H3.
    assert (Hin : in_canvas this pX pY) by (unfold in_canvas; lia).
    destruct (pixels this) as [px|] eqn:Hpx.
    2: { unfold Image_wf in Hwf. rewrite Hpx in Hwf. lia. }
    cbn [default from_option]. unfold plot, id.
    destruct (pixel_offset_in_canvas this px pX pY Hwf Hpx Hin) as [Hoff Hrange].
    destruct (buffer_read_Some px (width this * pY + pX) Hrange) as [old Hold].
    destruct (write_pixel_spec this px pX pY
                (blend pPred old (mkColor32 (red pColor1) (green pColor1) (blue pColor1)
                                    (alpha pColor1))) Hwf Hpx Hin)
      as (px' & Hw & Hlen & Hrd).
    exists (mkImage (Some px') (width this) (height this)).
    cbv zeta. rewrite Hoff in Hw |- *. rewrite Hold. cbn [mbind option_bind].
    rewrite Hw. cbn [mbind option_bind]. split; [reflexivity |].
    unfold IsGood, Image_pixel. rewrite Hpx. cbn [width height pixels mbind option_bind].
    split; [reflexivity |]. split; [reflexivity |]. split; [reflexivity |].
    intros x y Hxy. rewrite (Hrd x y Hxy).
    destruct ((x =? pX) && (y =? pY)) eqn:Exy; [| reflexivity].
    apply andb_true_iff in Exy as [Ex Ey]. apply Z.eqb_eq in Ex, Ey. subst x y.
    rewrite Hold. cbn. now destruct pColor1.
  - exists this. split; [reflexivity |]. split; [reflexivity |]. split; [reflexivity |].
    split; [reflexivity |]. intros x y [Hx Hy].
    destruct (Z.eqb_spec x pX) as [-> | Hne]; [| reflexivity].
    destruct (Z.eqb_spec y pY) as [-> | Hne]; [| reflexivity].
    exfalso. rewrite !andb_false_iff in E.
    destruct E as [[[E | E] | E] | E];
      [apply Z.leb_gt in E | apply Z.ltb_ge in E | apply Z.leb_gt in E | apply Z.ltb_ge in E];
      lia.
Qed.

End LineFacts.

(** ** Colour arithmetic *)

Section TableCells.
Variable g : Tables.
Hypothesis Hg : tables_check g = true.

Lemma tableAdd_cell (i j : Uint8) :
  u8 (Table.at_u8 (tableAdd g) i j) = Z.min 255 (u8 i + u8 j).
Proof. now destruct (tables_check_cells g i j Hg) as (? & ? & ?). Qed.

Lemma tableSub_cell (i j : Uint8) :
  u8 (Table.at_u8 (tableSub g) i j) = Z.max 0 (u8 i - u8 j).
Proof. now destruct (tables_check_cells g i j Hg) as (? & ? & ?). Qed.

Lemma tableMul_cell (i j : Uint8) :
  u8 (Table.at_u8 (tableMul g) i j) = (u8 i * u8 j) / 255.
Proof. now destruct (tables_check_cells g i j Hg) as (? & ? & ?). Qed.

End TableCells.

Lemma u8_x00 : u8 Byte.x00 = 0.
Proof. reflexivity. Qed.

Lemma u8_255 : u8 (byte.of_Z 255) = 255.
Proof. reflexivity. Qed.

Ltac color_law Hg :=
  unfold Color32_add, Color32_sub, Color32_mul, Color32_black, Color32_white, Color32_zero;
  cbn [red green blue alpha];
  f_equal; apply u8_inj;
  repeat first [rewrite (tableAdd_cell _ Hg) | rewrite (tableSub_cell _ Hg)
               | rewrite (tableMul_cell _ Hg) | rewrite u8_x00 | rewrite u8_255];
  repeat match goal with
         | |- context [u8 ?b] => is_var b; pose proof (u8_range b); generalize dependent (u8 b); intros
         end.

(** X15. With the tables [GfxInit] builds, [+] on colours is commutative and
    associative with black (all channels 0) as identity; subtracting black
    changes nothing, subtracting a colour from itself gives black and
    subtracting two colours in turn is subtracting their sum; [*] is
    commutative with white (all channels 255) as identity and black as
    absorbing element. *)
Theorem Color32_arithmetic_laws :
  exists g : Tables, GfxInit_tables Tables_static = Some g /\
    forall a b c : Color32,
      Color32_add g a b = Color32_add g b a /\
      Color32_add g (Color32_add g a b) c = Color32_add g a (Color32_add g b c) /\
      Color32_add g a Color32_black = a /\
      Color32_sub g a Color32_black = a /\
      Color32_sub g a a = Color32_black /\
      Color32_sub g (Color32_sub g a b) c = Color32_sub g a (Color32_add g b c) /\
      Color32_mul g a b = Color32_mul g b a /\
      Color32_mul g a Color32_white = a /\
      Color32_mul g a Color32_black = Color32_black.
Proof.
  destruct GfxInit_tables_result as (g & Hinit & Hg).
  exists g. split; [exact Hinit |].
  intros [ar ag ab aa] [br bg bb ba] [cr cg cb ca].
  repeat split; color_law Hg;
    try lia;
    try (rewrite Z.mul_comm; reflexivity);
    try (rewrite Z.div_mul by lia; reflexivity);
    try (rewrite Z.mul_0_r; reflexivity).
Qed.

(** ** AlphaBlend *)

Lemma AlphaBlend_channel_value (a s d : Uint8) :
  u8 (AlphaBlend_channel a s d) = u8 d + (u8 a * (u8 s - u8 d)) / 256 /\
  Z.min (u8 d) (u8 s) <= u8 (AlphaBlend_channel a s d) <= Z.max (u8 d) (u8 s).
Proof.
  pose proof (u8_range a) as Ha. pose proof (u8_range s) as Hs.
  pose proof (u8_range d) as Hd.
  assert (Hq : Z.min (u8 d) (u8 s) <= u8 d + (u8 a * (u8 s - u8 d)) / 256
               <= Z.max (u8 d) (u8 s)).
  { destruct (Z_le_gt_dec (u8 d) (u8 s)) as [Hle | Hgt].
    - assert (0 <= (u8 a * (u8 s - u8 d)) / 256) by (apply Z.div_pos; nia).
      assert ((u8 a * (u8 s - u8 d)) / 256 <= u8 s - u8 d)
        by (apply Z.div_le_upper_bound; nia).
      lia.
    - assert ((u8 a * (u8 s - u8 d)) / 256 <= 0)
        by (apply Z.lt_succ_r, Z.div_lt_upper_bound; nia).
      assert (u8 s - u8 d <= (u8 a * (u8 s - u8 d)) / 256)
        by (apply Z.div_le_lower_bound; nia).
      lia. }
  assert (E : u8 (AlphaBlend_channel a s d) = u8 d + (u8 a * (u8 s - u8 d)) / 256).
  { unfold AlphaBlend_channel, CHAR_BIT.
    rewrite (wrap32_small (u8 s - u8 d))
      by (unfold is_Sint32, Sint32_min, Sint32_max; lia).
    rewrite wrap32_small by (unfold is_Sint32, Sint32_min, Sint32_max; nia).
    rewrite Z.shiftr_div_pow2 by lia. change (2 ^ 8) with 256.
    unfold u8 at 1. rewrite byte.unsigned_of_Z. unfold byte.wrap.
    apply Z.mod_small. lia. }
  rewrite E. split; [reflexivity | exact Hq].
Qed.

(** X16. [AlphaBlend] moves each channel of the destination towards the source
    by the fraction alpha/256 of their distance, rounded down: the result
    lies between the two and the byte never wraps. With a source alpha of 0
    the destination is returned; with a source alpha of 255 a channel of
    the source is reached only from above, from below the result is one
    short of it. *)
Theorem AlphaBlend_blend (pDst pSrc : Color32) :
  channels_all
    (fun d s r => r = d + (u8 (alpha pSrc) * (s - d)) / 256 /\ Z.min d s <= r <= Z.max d s)
    pDst pSrc (blend mkAlphaBlend pDst pSrc) /\
  (u8 (alpha pSrc) = 0 -> blend mkAlphaBlend pDst pSrc = pDst) /\
  (u8 (alpha pSrc) = 255 ->
   channels_all (fun d s r => r = if d <? s then s - 1 else s)
     pDst pSrc (blend mkAlphaBlend pDst pSrc)).
Proof.
  unfold blend, AlphaBlend_Blender, channels_all. cbn [red green blue alpha].
  pose proof (AlphaBlend_channel_value (alpha pSrc) (red pSrc) (red pDst)) as [Er Br].
  pose proof (AlphaBlend_channel_value (alpha pSrc) (green pSrc) (green pDst)) as [Eg Bg].
  pose proof (AlphaBlend_channel_value (alpha pSrc) (blue pSrc) (blue pDst)) as [Eb Bb].
  pose proof (AlphaBlend_channel_value (alpha pSrc) (alpha pSrc) (alpha pDst)) as [Ea Ba].
  split; [repeat split; solve [assumption | lia] |]. split.
  - intros H0. rewrite H0 in Er, Eg, Eb, Ea. cbn in Er, Eg, Eb, Ea.
    rewrite Z.add_0_r in Er, Eg, Eb, Ea.
    apply u8_inj in Er, Eg, Eb. 
    destruct pDst as [dr dg db da]. cbn [red green blue alpha] in *.
    f_equal; try assumption. apply u8_inj. rewrite Ea at 1. reflexivity.
  - intros H255.
    assert (K : forall d s : Z, 0 <= d <= 255 -> 0 <= s <= 255 ->
              d + (255 * (s - d)) / 256 = if d <? s then s - 1 else s).
    { intros d s Hd Hs. destruct (Z.ltb_spec d s).
      - assert ((255 * (s - d)) / 256 = s - d - 1); [| lia].
        symmetry. apply Z.div_unique with (r := 256 - (s - d)); lia.
      - assert ((255 * (s - d)) / 256 = s - d); [| lia].
        symmetry. apply Z.div_unique with (r := d - s); lia. }
    rewrite Er, Eg, Eb, Ea. rewrite H255.
    pose proof (u8_range (red pSrc)). pose proof (u8_range (green pSrc)).
    pose proof (u8_range (blue pSrc)). pose proof (u8_range (red pDst)).
    pose proof (u8_range (green pDst)). pose proof (u8_range (blue pDst)).
    pose proof (u8_range (alpha pDst)).
    repeat split; apply K; lia.
Qed.

(** ** Examples *)

Lemma img_ABCD_wf : Image_wf img_ABCD.
Proof. unfold Image_wf, MaxDimension, USHRT_MAX, Sint32_max. simpl. lia. Qed.

Lemma img_AB_wf : Image_wf img_AB.
Proof. unfold Image_wf, MaxDimension, USHRT_MAX, Sint32_max. simpl. lia. Qed.

Lemma img_PQPQ_wf : Image_wf img_PQPQ.
Proof. unfold Image_wf, MaxDimension, USHRT_MAX, Sint32_max. simpl. lia. Qed.

Lemma Save_AB :
  Save linux_x86 None "ab.img" img_AB fs_empty None = Some (true, fs_saved_AB, None).
Proof. vm_compute. reflexivity. Qed.

(** The right column of the first row of a 2 by 2 image filled. *)
Lemma Fill_blends_clipped_rectangle_witness :
  Image_wf img_ABCD /\
  exists this' : Image,
    Fill mkAssign c_P 1 0 5 1 img_ABCD = Some this' /\
    Image_pixel this' 1 0 = Some c_P /\
    Image_pixel this' 0 0 = Some c_A /\
    Image_pixel this' 1 1 = Some c_D.
Proof.
  split; [exact img_ABCD_wf |].
  destruct (Fill_blends_clipped_rectangle mkAssign c_P 1 0 5 1 img_ABCD img_ABCD_wf)
    as (this' & HF & _ & _ & _ & _ & Hpix).
  exists this'. split; [exact HF |]. split; [| split].
  - destruct (Hpix 1 0) as [Hin _]; [unfold in_canvas; simpl; lia |].
    rewrite Hin; [reflexivity | unfold in_clipped; simpl; lia].
  - destruct (Hpix 0 0) as [_ Hout]; [unfold in_canvas; simpl; lia |].
    rewrite Hout; [reflexivity | unfold in_clipped; simpl; lia].
  - destruct (Hpix 1 1) as [_ Hout]; [unfold in_canvas; simpl; lia |].
    rewrite Hout; [reflexivity | unfold in_clipped; simpl; lia].
Defined.

(** The first row of a 2 by 2 source copied over the first row of a 2 by 2
    destination: the second row stays. *)
Lemma Blit_frame_witness :
  exists w' : World,
    Blit mkAssign mkNearest img_ABCD 0 0 2 1 0 0 MaxDimension 1 (World_of img_PQPQ) = Some w' /\
    same_shape (World_of img_PQPQ) w' /\
    w_error w' = None /\
    Image_pixel (w_dst w') 0 1 = Some c_P /\
    Image_pixel (w_dst w') 1 1 = Some c_Q.
Proof.
  assert (E : exists w' : World,
             Blit mkAssign mkNearest img_ABCD 0 0 2 1 0 0 MaxDimension 1 (World_of img_PQPQ)
               = Some w')
    by (eexists; vm_compute; reflexivity).
  destruct E as [w' E]. exists w'. split; [exact E |].
  destruct (Blit_frame mkAssign mkNearest img_ABCD 0 0 2 1 0 0 MaxDimension 1
              (World_of img_PQPQ) w') as (Hshape & Herr & Hpix).
  - exact img_PQPQ_wf.
  - unfold is_Sint32, Sint32_min, Sint32_max. lia.
  - unfold is_Sint32, Sint32_min, Sint32_max. lia.
  - unfold is_Sint32, Sint32_min, Sint32_max. lia.
  - unfold is_Sint32, Sint32_min, Sint32_max. lia.
  - exact E.
  - split; [exact Hshape |]. split; [now apply Herr |]. split.
    + rewrite Hpix; [reflexivity | unfold in_canvas; simpl; lia
                                 | unfold in_clipped; simpl; lia].
    + rewrite Hpix; [reflexivity | unfold in_canvas; simpl; lia
                                 | unfold in_clipped; simpl; lia].
Defined.

Lemma Copy_duplicates_witness :
  Image_wf img_AB /\
  Copy true img_AB Image_empty None = Some (true, img_AB, None) /\
  Copy false img_AB img_PQ None = Some (false, Image_empty, Some MsgThisWhat).
Proof.
  split; [exact img_AB_wf |]. split.
  - exact (Copy_duplicates true img_AB Image_empty None img_AB_wf).
  - exact (Copy_duplicates false img_AB img_PQ None img_AB_wf).
Defined.

Lemma ReverseByteorder_involutive_witness :
  Image_wf img_AB /\
  exists this' : Image,
    ReverseByteorder linux_x86 img_AB = Some this' /\
    pixels this' =
      Some [mkColor32 (green c_A) (red c_A) (alpha c_A) (blue c_A);
            mkColor32 (green c_B) (red c_B) (alpha c_B) (blue c_B)] /\
    ReverseByteorder linux_x86 this' = Some img_AB.
Proof.
  split; [exact img_AB_wf |].
  destruct (ReverseByteorder_involutive linux_x86 img_AB img_AB_wf)
    as (this' & HR & _ & _ & _ & Hpx & Hback).
  exists this'. split; [exact HR |]. split; [exact Hpx | exact Hback].
Defined.

(** Two of the four announced pixels are in the file. *)
Lemma Load_short_file_zero_fills_witness :
  Load linux_x86 true "cut.img" fs_cut Image_empty None =
    (true, Image_of 2 2 [c_A; c_B; Color32_zero; Color32_zero], None).
Proof.
  apply (Load_short_file_zero_fills linux_x86 "cut.img" fs_cut Image_empty None 2 2
           [c_A; c_B]).
  - unfold MaxDimension, USHRT_MAX. lia.
  - unfold MaxDimension, USHRT_MAX. lia.
  - unfold Sint32_max. lia.
  - simpl. lia.
  - reflexivity.
Defined.

(** Saved on Linux, loaded on Mac OS X, both little-endian. *)
Lemma Load_other_channel_order_then_reverse_witness :
  exists loaded : Image,
    Load macosx_x86 true "ab.img" fs_saved_AB Image_empty None = (true, loaded, None) /\
    width loaded = 2 /\ height loaded = 1 /\
    pixels loaded =
      Some [mkColor32 (green c_A) (red c_A) (alpha c_A) (blue c_A);
            mkColor32 (green c_B) (red c_B) (alpha c_B) (blue c_B)] /\
    ReverseByteorder macosx_x86 loaded = Some img_AB.
Proof.
  apply (Load_other_channel_order_then_reverse linux_x86 macosx_x86 "ab.img" img_AB
           Image_empty [c_A; c_B] fs_empty fs_saved_AB None None None).
  - reflexivity.
  - discriminate.
  - reflexivity.
  - exact img_AB_wf.
  - exact Save_AB.
Defined.

(** Saved on a little-endian machine, loaded on a big-endian one. *)
Lemma Load_other_byte_order_refused_witness :
  Load linux_ppc true "ab.img" fs_saved_AB img_PQ None =
    (false, Image_empty, Some (MsgThis "Format not recognized")).
Proof.
  apply (Load_other_byte_order_refused linux_x86 linux_ppc true "ab.img" img_AB img_PQ
           [c_A; c_B] fs_empty fs_saved_AB None None None).
  - reflexivity.
  - reflexivity.
  - exact img_AB_wf.
  - exact Save_AB.
Defined.

(** A file that is not there: the image is kept. *)
Lemma Load_outcome_witness :
  Image_wf img_AB /\
  Image_wf (snd (fst (Load linux_x86 true "none.img" fs_saved_AB img_AB None))) /\
  Load linux_x86 true "none.img" fs_saved_AB img_AB None =
    (false, img_AB, Some (MsgThis "Could not open file")).
Proof.
  split; [exact img_AB_wf |].
  destruct (Load_outcome linux_x86 true "none.img" fs_saved_AB img_AB None img_AB_wf)
    as [Hwf [(Ht & _) | [(Hr & _) | (_ & He & _)]]].
  - split; [exact Hwf |]. vm_compute in Ht. discriminate Ht.
  - split; [exact Hwf | exact Hr].
  - split; [exact Hwf |]. vm_compute in He. discriminate He.
Defined.


Lemma SetRGBA_stores_normalised_witness :
  Image_wf img_ABCD /\ in_canvas img_ABCD 1 0 /\
  exists this' : Image,
    SetRGBA 1 0 (u8chan_normalised (red c_P)) (u8chan_normalised (green c_P))
      (u8chan_normalised (blue c_P)) (u8chan_normalised (alpha c_P)) img_ABCD = Some this' /\
    Image_pixel this' 1 0 = Some c_P /\ Image_pixel this' 0 1 = Some c_C.
Proof.
  assert (Hin : in_canvas img_ABCD 1 0) by (unfold in_canvas; simpl; lia).
  split; [exact img_ABCD_wf |]. split; [exact Hin |].
  destruct (SetRGBA_stores_normalised img_ABCD 1 0 c_P img_ABCD_wf Hin)
    as (this' & HS & _ & _ & _ & Hpix).
  exists this'. split; [exact HS |]. split.
  - rewrite Hpix by (unfold in_canvas; simpl; lia). reflexivity.
  - rewrite Hpix by (unfold in_canvas; simpl; lia). reflexivity.
Defined.

Lemma SetRGB_keeps_alpha_witness :
  Image_wf img_ABCD /\ in_canvas img_ABCD 1 0 /\
  exists this' : Image,
    SetRGB 1 0 (u8chan_normalised (red c_P)) (u8chan_normalised (green c_P))
      (u8chan_normalised (blue c_P)) img_ABCD = Some this' /\
    Image_pixel this' 1 0 = Some (mkColor32 (red c_P) (green c_P) (blue c_P) (alpha c_B)) /\
    Image_pixel this' 0 1 = Some c_C.
Proof.
  assert (Hin : in_canvas img_ABCD 1 0) by (unfold in_canvas; simpl; lia).
  split; [exact img_ABCD_wf |]. split; [exact Hin |].
  destruct (SetRGB_keeps_alpha img_ABCD 1 0 c_P img_ABCD_wf Hin)
    as (this' & old & HS & Hold & _ & _ & _ & Hpix).
  assert (old = c_B) as -> by (vm_compute in Hold; now injection Hold).
  exists this'. split; [exact HS |]. split.
  - rewrite Hpix by (unfold in_canvas; simpl; lia). reflexivity.
  - rewrite Hpix by (unfold in_canvas; simpl; lia). reflexivity.
Defined.

Lemma Line_single_point_witness :
  Image_wf img_ABCD /\
  exists this' : Image,
    Line mkAssign 0 1 0 c_P 1 0 c_Q img_ABCD = Some this' /\
    Image_pixel this' 1 0 = Some c_P /\ Image_pixel this' 0 1 = Some c_C.
Proof.
  split; [exact img_ABCD_wf |].
  destruct (Line_single_point mkAssign 0 1 0 c_P c_Q img_ABCD img_ABCD_wf)
    as (this' & HL & _ & _ & _ & Hpix).
  exists this'. split; [exact HL |]. split.
  - rewrite Hpix by (unfold in_canvas; simpl; lia). reflexivity.
  - rewrite Hpix by (unfold in_canvas; simpl; lia). reflexivity.
Defined.

(** ** The pixels a streamed blit writes *)



Section StreamedBlitFacts.
Context {Blender_t : Type} `{!Blender Blender_t}.
Variables (p : Platform) (pBlend : Blender_t).









End StreamedBlitFacts.


